(** * The GMET ensemble notebook (notebooks/gmet_ensemble.ipynb)

    The notebook is a linear script over a labelled-array library: it opens
    one dataset [ds] and derives arrays from it by selection, reduction,
    resampling and grouping.  This file embeds the cells of the notebook as
    functions of [ds], over a model of the labelled arrays it manipulates,
    and proves the properties of the derived arrays.

    Modelling choices, fixed here once:
    - a float64 cell is a rational or the missing value (NaN): [option Q];
      rounding is not modelled;
    - an array is a list of named axes, each with its coordinate labels,
      and a function from named indices to cells, so that broadcasting by
      dimension name is what the library does;
    - an exception of the library is a [Raise] in the [result] monad;
    - a lazy (dask) array denotes the values it computes: [persist] is the
      identity on them, and an exception raised when the graph is computed
      is raised by the operation that builds the node;
    - a time index holds timestamps of daily resolution ([Date]), so a
      date string selects the entry of that day, exactly; string-typed
      and sub-daily indexes are outside the model;
    - on an array with an empty dimension the reductions follow numpy (a
      maximum or minimum over no cell raises); where the chunked backend
      raises earlier than that, the model does not. *)

From Stdlib Require Import ZArith QArith Qminmax Lia Lqa.
From stdpp Require Import base list strings gmap.

(** ** Exceptions and the result monad *)

Inductive exn :=
  | KeyError | IndexError | ValueError | TypeError | NameError
  | InvalidIndexError
  | NotModelled.  (* a path of the library this embedding leaves out *)

Inductive result (A : Type) :=
  | Ok (a : A)
  | Raise (e : exn).
Arguments Ok {A} a.
Arguments Raise {A} e.

#[global] Instance result_ret : MRet result := @Ok.
#[global] Instance result_bind : MBind result := λ A B f m,
  match m with Ok a => f a | Raise e => Raise e end.
#[global] Instance result_fmap : FMap result := λ A B f m,
  match m with Ok a => Ok (f a) | Raise e => Raise e end.

Definition is_ok {A} (m : result A) : bool :=
  match m with Ok _ => true | Raise _ => false end.

(** ** Coordinate labels *)

Record Date := mkDate { year : Z; month : Z; day : Z }.

Definition date_eqb (a b : Date) : bool :=
  (year a =? year b)%Z && (month a =? month b)%Z && (day a =? day b)%Z.

Definition date_leb (a b : Date) : bool :=
  (year a <? year b)%Z
  || ((year a =? year b)%Z
      && ((month a <? month b)%Z
          || ((month a =? month b)%Z && (day a <=? day b)%Z))).

(** A coordinate label: a float (lat, lon, ensemble member number), a
    timestamp of daily resolution, or a string (season). *)
Inductive Label :=
  | LNum (q : Q)
  | LDate (d : Date)
  | LStr (s : string).

Definition label_eqb (a b : Label) : bool :=
  match a, b with
  | LNum p, LNum q => Qeq_bool p q
  | LDate d, LDate e => date_eqb d e
  | LStr s, LStr t => String.eqb s t
  | _, _ => false
  end.

Definition label_leb (a b : Label) : bool :=
  match a, b with
  | LNum p, LNum q => Qle_bool p q
  | LDate d, LDate e => date_leb d e
  | LStr s, LStr t => bool_decide (String.le s t)
  | _, _ => false
  end.

Definition Qltb (x y : Q) : bool := negb (Qle_bool y x).

(** ** Labelled arrays *)

(** A cell of a float array; [None] is NaN. *)
Abbreviation Value := (option Q).

(** An index into an array: a position for each dimension name, as in the
    [dict] that [isel] takes.  A name that is not bound reads as 0. *)
Abbreviation Env := (gmap string nat).

Definition upd (d : string) (i : nat) (e : Env) : Env := <[d := i]> e.

Definition Axes := list (string * list Label).

Record DataArray (V : Type) := mkDA {
  axes : Axes;
  values : Env → V
}.
Arguments mkDA {V} axes values.
Arguments axes {V} _.
Arguments values {V} _ _.

Definition dims {V} (a : DataArray V) : list string := (axes a).*1.

Fixpoint assoc {A} (d : string) (l : list (string * A)) : option A :=
  match l with
  | [] => None
  | (k, v) :: r => if String.eqb k d then Some v else assoc d r
  end.

Definition mem (d : string) (l : list string) : bool :=
  existsb (String.eqb d) l.

Definition has_dim {V} (d : string) (a : DataArray V) : bool := mem d (dims a).

(** The labels of dimension [d]; a dimension the array does not have has
    none. *)
Definition coord (d : string) (ax : Axes) : list Label :=
  default [] (assoc d ax).

Definition axis_len (d : string) (ax : Axes) : nat := length (coord d ax).

Definition drop_axes (ds : list string) (ax : Axes) : Axes :=
  List.filter (λ p, negb (mem p.1 ds)) ax.

(** Axis [d] becomes axis [d'] with labels [labs], in place. *)
Definition set_axis (d d' : string) (labs : list Label) (ax : Axes) : Axes :=
  map (λ p, if String.eqb p.1 d then (d', labs) else p) ax.

(** The cells of [f] over every index of the dimensions [ds], the other
    indices being those of [e]. *)
Fixpoint gather {V} (ds : list string) (ax : Axes) (f : Env → V) (e : Env)
    : list V :=
  match ds with
  | [] => [f e]
  | d :: ds' =>
      flat_map (λ i, gather ds' ax f (upd d i e)) (seq 0 (axis_len d ax))
  end.

Fixpoint nodupb (l : list string) : bool :=
  match l with
  | [] => true
  | x :: r => negb (mem x r) && nodupb r
  end.

(** ** NaN-skipping reducers (the library's default for floats) *)

Definition present (l : list Value) : list Q := omap id l.

Definition Qsum (l : list Q) : Q := foldr Qplus 0%Q l.

Definition Qmean (l : list Q) : Q := (Qsum l / inject_Z (Z.of_nat (length l)))%Q.

Definition nansum (l : list Value) : Value := Some (Qsum (present l)).

Definition nanmean (l : list Value) : Value :=
  match present l with
  | [] => None
  | x :: r => Some (Qmean (x :: r))
  end.

Definition nanmax (l : list Value) : Value :=
  match present l with
  | [] => None
  | x :: r => Some (foldr Qmax x r)
  end.

Definition nanmin (l : list Value) : Value :=
  match present l with
  | [] => None
  | x :: r => Some (foldr Qmin x r)
  end.

(** Population variance (ddof = 0): the mean of the squared deviations. *)
Definition Qvar (l : list Q) : Q :=
  Qmean (map (λ x, ((x - Qmean l) * (x - Qmean l))%Q) l).

Definition nanstd (sqrtQ : Q → Q) (l : list Value) : Value :=
  match present l with
  | [] => None
  | x :: r => Some (sqrtQ (Qvar (x :: r)))
  end.

(** ** Positional indexing *)

(** Python's [a[k]] on a sequence of length [n]: negative [k] counts from
    the end. *)
Definition py_index (k : Z) (n : nat) : option nat :=
  let n' := Z.of_nat n in
  if (0 <=? k)%Z && (k <? n')%Z then Some (Z.to_nat k)
  else if (- n' <=? k)%Z && (k <? 0)%Z then Some (Z.to_nat (k + n'))
  else None.

(** A bound of Python's [slice(start, stop)] on length [n], clamped. *)
Definition py_clamp (x : Z) (n : nat) : nat :=
  if (x <? 0)%Z then Z.to_nat (Z.max (x + Z.of_nat n) 0)
  else Nat.min (Z.to_nat x) n.

Fixpoint positions_from (i : nat) (p : Label → bool) (labs : list Label)
    : list nat :=
  match labs with
  | [] => []
  | l :: r => (if p l then [i] else []) ++ positions_from (S i) p r
  end.

Definition positions (p : Label → bool) (labs : list Label) : list nat :=
  positions_from 0 p labs.

Definition count (p : Label → bool) (labs : list Label) : nat :=
  length (List.filter p labs).

Fixpoint sortedb {A} (le : A → A → bool) (l : list A) : bool :=
  match l with
  | a :: r => match r with [] => true | b :: _ => le a b && sortedb le r end
  | [] => true
  end.

Definition is_num (l : Label) : bool :=
  match l with LNum _ => true | _ => false end.

Definition as_date (l : Label) : option Date :=
  match l with LDate d => Some d | _ => None end.

(** Dimension [d] keeps the entries at positions [ps], in that order. *)
Definition take_positions {V} (d : string) (ps : list nat) (a : DataArray V)
    : DataArray V :=
  let labs := coord d (axes a) in
  mkDA (set_axis d d (omap (λ i, labs !! i) ps) (axes a))
       (λ e, values a (upd d (nth (e !!! d) ps 0) e)).

(** Dimension [d] is fixed at position [i] and leaves the array. *)
Definition at_position {V} (d : string) (i : nat) (a : DataArray V)
    : DataArray V :=
  mkDA (drop_axes [d] (axes a)) (λ e, values a (upd d i e)).

(** The positions a label range [slice(lo, hi)] selects in a pandas index:
    both bounds are inclusive.  On a monotonic index the bounds are found
    by bisection and need not be labels of the index; elsewhere each bound
    has to be a label. *)
Definition slice_positions (lo hi : Q) (labs : list Label)
    : result (list nat) :=
  if negb (forallb is_num labs) then Raise TypeError
  else
    let below x := count (λ l, negb (label_leb (LNum x) l)) labs in
    let upto x := count (λ l, label_leb l (LNum x)) labs in
    if sortedb label_leb labs then
      Ok (seq (below lo) (upto hi - below lo))
    else if sortedb (λ a b, label_leb b a) labs then
      let start := count (λ l, negb (label_leb l (LNum lo))) labs in
      let stop := count (λ l, label_leb (LNum hi) l) labs in
      Ok (seq start (stop - start))
    else
      match positions (label_eqb (LNum lo)) labs,
            positions (label_eqb (LNum hi)) labs with
      | [], _ | _, [] => Raise KeyError
      | [i], [j] => Ok (seq i (S j - i))
      | _, _ => Raise NotModelled
      end.

(** ** Resampling frequencies and seasons *)

Inductive Freq :=
  | AS       (* year start *)
  | QS_Mar.  (* quarter start, quarters beginning in March *)

(** The number of the period a date falls in: the year, or the quarter
    counted from March of year 0. *)
Definition period (f : Freq) (d : Date) : Z :=
  match f with
  | AS => year d
  | QS_Mar =>
      if (month d <? 3)%Z then 4 * (year d - 1) + 3
      else 4 * year d + (month d - 3) / 3
  end%Z.

(** The label of a period: its first day. *)
Definition period_start (f : Freq) (p : Z) : Date :=
  match f with
  | AS => mkDate p 1 1
  | QS_Mar => mkDate (p / 4) (3 + 3 * (p mod 4)) 1
  end%Z.

(** The library's [time.season]: [seasons[(month // 3) % 4]]. *)
Definition season_of (d : Date) : string :=
  match ((month d / 3) mod 4)%Z with
  | 0%Z => "DJF"
  | 1%Z => "MAM"
  | 2%Z => "JJA"
  | _ => "SON"
  end.

(** The group labels of a season grouping are the distinct seasons in
    sorted (alphabetical) order. *)
Definition sorted_seasons : list string := ["DJF"; "JJA"; "MAM"; "SON"].

Definition unique_seasons (keys : list string) : list string :=
  List.filter (λ s, mem s keys) sorted_seasons.

(** ** DataArray methods *)

Module DA.

(** [a.isel(d=k)]: one position; the dimension leaves the array. *)
Definition isel {V} (d : string) (k : Z) (a : DataArray V)
    : result (DataArray V) :=
  if has_dim d a then
    match py_index k (axis_len d (axes a)) with
    | Some i => Ok (at_position d i a)
    | None => Raise IndexError
    end
  else Raise ValueError.

(** [a.isel(d=slice(start, stop))]. *)
Definition isel_slice {V} (d : string) (start stop : Z) (a : DataArray V)
    : result (DataArray V) :=
  if has_dim d a then
    let n := axis_len d (axes a) in
    let lo := py_clamp start n in
    Ok (take_positions d (seq lo (py_clamp stop n - lo)) a)
  else Raise ValueError.

(** [a.sel(d=lab)] with a literal label: the index is looked up
    ([get_loc]); a single match is a scalar selection and the dimension
    leaves the array, several matches keep it. *)
Definition sel {V} (d : string) (lab : Label) (a : DataArray V)
    : result (DataArray V) :=
  if has_dim d a then
    match positions (label_eqb lab) (coord d (axes a)) with
    | [] => Raise KeyError
    | [i] => Ok (at_position d i a)
    | ps => Ok (take_positions d ps a)
    end
  else Raise ValueError.

(** [a.sel(d=slice(lo, hi))]. *)
Definition sel_slice {V} (d : string) (lo hi : Q) (a : DataArray V)
    : result (DataArray V) :=
  if has_dim d a then
    ps ← slice_positions lo hi (coord d (axes a));
    Ok (take_positions d ps a)
  else Raise ValueError.

(** [a.sel(d=[l1, ..., ln])]: every label has to be in the index
    ([get_indexer]); the result carries the labels in the order asked. *)
Definition sel_list {V} (d : string) (labs : list Label) (a : DataArray V)
    : result (DataArray V) :=
  if has_dim d a then
    let index := coord d (axes a) in
    if forallb (λ l, length (positions (label_eqb l) index) <=? 1) index then
      match mapM (λ l, head (positions (label_eqb l) index)) labs with
      | Some ps => Ok (take_positions d ps a)
      | None => Raise KeyError
      end
    else Raise InvalidIndexError
  else Raise ValueError.

(** [a.reduce(f, dim=ds)]: the dimensions [ds] are collapsed by [f]. *)
Definition reduce (f : list Value → Value) (ds : list string)
    (a : DataArray Value) : result (DataArray Value) :=
  if forallb (λ d, has_dim d a) ds && nodupb ds then
    Ok (mkDA (drop_axes ds (axes a))
             (λ e, f (gather ds (axes a) (values a) e)))
  else Raise ValueError.

(** A maximum or minimum over no cell has no identity: numpy raises
    [ValueError].  The properties below are about reductions over
    dimensions that are not empty. *)
Definition reduce_nonempty (f : list Value → Value) (ds : list string)
    (a : DataArray Value) : result (DataArray Value) :=
  r ← reduce f ds a;
  if existsb (λ d, axis_len d (axes a) =? 0) ds then Raise ValueError
  else Ok r.

Definition mean := reduce nanmean.
Definition std (sqrtQ : Q → Q) := reduce (nanstd sqrtQ).
Definition max := reduce_nonempty nanmax.
Definition min := reduce_nonempty nanmin.

(** Elementwise combination, broadcast by dimension name: the result has
    the dimensions of [a], then those of [b] that [a] lacks.  Both
    operands come from one dataset here, so the dimensions they share
    carry the same index and the library's alignment is the identity. *)
Definition binop {A B C} (f : A → B → C) (a : DataArray A)
    (b : DataArray B) : DataArray C :=
  mkDA (axes a ++ drop_axes (dims a) (axes b))
       (λ e, f (values a e) (values b e)).

Definition sub : DataArray Value → DataArray Value → DataArray Value :=
  binop (λ x y, match x, y with
                | Some p, Some q => Some (p - q)%Q
                | _, _ => None
                end).

(** [a < q] and [a > q]: a comparison with NaN is false. *)
Definition lt (a : DataArray Value) (q : Q) : DataArray bool :=
  mkDA (axes a)
       (λ e, match values a e with Some x => Qltb x q | None => false end).

Definition gt (a : DataArray Value) (q : Q) : DataArray bool :=
  mkDA (axes a)
       (λ e, match values a e with Some x => Qltb q x | None => false end).

(** [a.where(cond)]: the cells where [cond] is false become NaN. *)
Definition where_ (a : DataArray Value) (cond : DataArray bool)
    : DataArray Value :=
  binop (λ v (c : bool), if c then v else None) a cond.

(** [a.persist(retries=n)]: the values of the graph, computed. *)
Definition persist {V} (retries : nat) (a : DataArray V) : DataArray V := a.

End DA.

(** ** Resampling: [a.resample(time=freq)] *)

Record Resample := mkRS {
  rs_obj : DataArray Value;
  rs_dim : string;
  rs_freq : Freq;
  rs_periods : list Z;   (* the period of each entry of the dimension *)
  rs_first : Z;          (* the first bin *)
  rs_bins : nat          (* the number of bins, empty ones included *)
}.

Module RS.

(** The time index has to be a monotonic datetime index; on an empty
    one the lookup of the first entry raises [IndexError].  The bins run
    from the period of the first entry to the period of the last one. *)
Definition resample (d : string) (f : Freq) (a : DataArray Value)
    : result Resample :=
  if has_dim d a then
    match mapM as_date (coord d (axes a)) with
    | None => Raise TypeError
    | Some [] => Raise IndexError
    | Some (d0 :: ds) =>
        if sortedb date_leb (d0 :: ds) then
          let p0 := period f d0 in
          let p1 := period f (List.last ds d0) in
          Ok (mkRS a d f (map (period f) (d0 :: ds)) p0
                   (Z.to_nat (p1 - p0 + 1)))
        else Raise ValueError
    end
  else Raise KeyError.

Definition bin_positions (rs : Resample) (k : nat) : list nat :=
  List.filter
    (λ i, match rs_periods rs !! i with
          | Some p => (p =? rs_first rs + Z.of_nat k)%Z
          | None => false
          end)
    (seq 0 (length (rs_periods rs))).

Definition bin_labels (rs : Resample) : list Label :=
  map (λ k, LDate (period_start (rs_freq rs) (rs_first rs + Z.of_nat k)))
      (seq 0 (rs_bins rs)).

(** The reduction of each bin over the resampled dimension; the bins
    without an entry are restored as NaN. *)
Definition reduce (f : list Value → Value) (dim : string) (rs : Resample)
    : result (DataArray Value) :=
  if String.eqb dim (rs_dim rs) then
    let a := rs_obj rs in
    Ok (mkDA (set_axis dim dim (bin_labels rs) (axes a))
             (λ e, match bin_positions rs (e !!! dim) with
                   | [] => None
                   | ps => f (map (λ i, values a (upd dim i e)) ps)
                   end))
  else Raise NotModelled.

Definition sum := reduce nansum.
Definition max := reduce nanmax.

End RS.

(** ** Grouping by season: [a.groupby('time.season')] *)

Record GroupBy := mkGB {
  gb_obj : DataArray Value;
  gb_dim : string;
  gb_keys : list string   (* the season of each entry of the dimension *)
}.

Module GB.

Definition groupby_season (d : string) (a : DataArray Value)
    : result GroupBy :=
  if has_dim d a then
    match mapM as_date (coord d (axes a)) with
    | None => Raise TypeError
    | Some [] => Raise ValueError
    | Some ds => Ok (mkGB a d (map season_of ds))
    end
  else Raise KeyError.

Definition group_labels (gb : GroupBy) : list string :=
  unique_seasons (gb_keys gb).

Definition group_positions (gb : GroupBy) (k : nat) : list nat :=
  List.filter
    (λ i, match gb_keys gb !! i, group_labels gb !! k with
          | Some s, Some t => String.eqb s t
          | _, _ => false
          end)
    (seq 0 (length (gb_keys gb))).

(** The reduction of each group over the grouped dimension, which the
    dimension [season] replaces in place. *)
Definition reduce (f : list Value → Value) (dim : string) (gb : GroupBy)
    : result (DataArray Value) :=
  if has_dim "season" (gb_obj gb) then Raise NotModelled
  else if String.eqb dim (gb_dim gb) then
    let a := gb_obj gb in
    Ok (mkDA (set_axis dim "season" (map LStr (group_labels gb)) (axes a))
             (λ e, f (map (λ i, values a (upd dim i e))
                          (group_positions gb (e !!! "season")))))
  else Raise NotModelled.

Definition mean := reduce nanmean.

End GB.

(** ** Datasets *)

(** A dataset maps variable names to arrays; its variables agree on the
    index of every dimension they share. *)
Definition Dataset := list (string * DataArray Value).

Module DS.

(** [ds[name]] *)
Definition getitem (name : string) (ds : Dataset)
    : result (DataArray Value) :=
  match assoc name ds with
  | Some a => Ok a
  | None => Raise KeyError
  end.

(** The index of dimension [d], if the dataset has the dimension. *)
Definition index (d : string) (ds : Dataset) : option (list Label) :=
  head (omap (λ v : string * DataArray Value, assoc d (axes v.2)) ds).

Definition isel_positions (d : string) (ps : list nat) (ds : Dataset)
    : Dataset :=
  map (λ v : string * DataArray Value,
         (v.1, if has_dim d v.2 then take_positions d ps v.2 else v.2))
      ds.

(** [ds.sel(d1=slice(lo1, hi1), ..., dn=slice(lon, hin))]: the label
    ranges become positions in the dataset's indexes, and every variable
    is indexed along the dimensions it has. *)
Definition sel (indexers : list (string * (Q * Q))) (ds : Dataset)
    : result Dataset :=
  if forallb (λ ix : string * (Q * Q), bool_decide (is_Some (index ix.1 ds)))
             indexers
  then
    pos ← mapM (λ ix : string * (Q * Q),
                  ps ← slice_positions ix.2.1 ix.2.2
                         (default [] (index ix.1 ds));
                  Ok (ix.1, ps))
               indexers;
    Ok (foldl (λ acc (p : string * list nat), isel_positions p.1 p.2 acc)
              ds pos)
  else Raise ValueError.

(** [ds.dims]: the dimensions of the variables, each once. *)
Definition dims (ds : Dataset) : list string :=
  remove_dups
    (mjoin (map (λ v : string * DataArray Value, (axes v.2).*1) ds)).

(** [ds.reduce]: the dimensions have to be dimensions of the dataset,
    and every variable is reduced over those of them that it has, by the
    reduction [red] of arrays. *)
Definition reduce
    (red : list string → DataArray Value → result (DataArray Value))
    (ds : list string) (dset : Dataset) : result Dataset :=
  if forallb (λ d, mem d (dims dset)) ds then
    mapM (λ v : string * DataArray Value,
            r ← red (List.filter (λ d, mem d ds) (axes v.2).*1) v.2;
            Ok (v.1, r))
         dset
  else Raise ValueError.

Definition mean := reduce DA.mean.
Definition std (sqrtQ : Q → Q) := reduce (DA.std sqrtQ).
Definition max := reduce DA.max.
Definition min := reduce DA.min.

End DS.

(** * The cells of the notebook, as functions of the dataset [ds] *)

(** ** Figure: elevation and domain mask *)

(** [elevation], as the [if] statement binds it. *)
Definition elevation_0 (ds : Dataset) : result (DataArray Value) :=
  elev ← DS.getitem "elevation" ds;
  if mem "ensemble" (dims elev) then
    DA.persist 0 <$> DA.isel "ensemble" 0 elev
  else Ok (DA.persist 0 elev).

(** [elevation = elevation.where(elevation > 0)] *)
Definition elevation (ds : Dataset) : result (DataArray Value) :=
  e0 ← elevation_0 ds;
  Ok (DA.where_ e0 (DA.gt e0 0)).

(** ** Ensemble uncertainty for a single day *)

Definition temp (ds : Dataset) : result (DataArray Value) :=
  t_mean ← DS.getitem "t_mean" ds;
  DA.sel "time" (LDate (mkDate 1984 7 31)) t_mean.

Definition temp_ens_mean (ds : Dataset) : result (DataArray Value) :=
  t ← temp ds;
  DA.mean ["ensemble"] t.

Definition temp_errors (ds : Dataset) : result (DataArray Value) :=
  t ← temp ds;
  m ← temp_ens_mean ds;
  Ok (DA.sub t m).

Definition temp_std_errors (sqrtQ : Q → Q) (ds : Dataset)
    : result (DataArray Value) :=
  err ← temp_errors ds;
  DA.std sqrtQ ["ensemble"] err.

(** ** Intra-ensemble range *)

Definition temp_mean (ds : Dataset) : result (DataArray Value) :=
  t_mean ← DS.getitem "t_mean" ds;
  DA.mean ["time"] t_mean.

(** [spread], before and after [spread = spread.persist(retries=2)]. *)
Definition spread_0 (ds : Dataset) : result (DataArray Value) :=
  tm ← temp_mean ds;
  hi ← DA.max ["ensemble"] tm;
  lo ← DA.min ["ensemble"] tm;
  Ok (DA.sub hi lo).

Definition spread (ds : Dataset) : result (DataArray Value) :=
  DA.persist 2 <$> spread_0 ds.

(** ** Average seasonal snowfall *)

Definition da_snow (ds : Dataset) : result (DataArray Value) :=
  pcp ← DS.getitem "pcp" ds;
  t_mean ← DS.getitem "t_mean" ds;
  rs ← RS.resample "time" QS_Mar (DA.where_ pcp (DA.lt t_mean 0));
  RS.sum "time" rs.

(** [seasonal_snow], as the grouping cell binds it. *)
Definition seasonal_snow_0 (ds : Dataset) : result (DataArray Value) :=
  snow ← da_snow ds;
  first4 ← DA.isel_slice "ensemble" 0 4 snow;
  gb ← GB.groupby_season "time" first4;
  DA.persist 0 <$> GB.mean "time" gb.

Definition season_order : list Label :=
  [LStr "DJF"; LStr "MAM"; LStr "JJA"; LStr "SON"].

(** [seasonal_snow = seasonal_snow.sel(season=['DJF', 'MAM', 'JJA', 'SON'])] *)
Definition seasonal_snow (ds : Dataset) : result (DataArray Value) :=
  s ← seasonal_snow_0 ds;
  DA.sel_list "season" season_order s.

(** ** Annual maximum precipitation near Austin, TX *)

Definition buf : Q := 25 # 100.
Definition austin_lat : Q := 302672 # 10000.
Definition austin_lon : Q := - (977431 # 10000).

(** The label lies in the inclusive range from [lo] to [hi]. *)
Definition in_range (lo hi : Q) (l : Label) : bool :=
  label_leb (LNum lo) l && label_leb l (LNum hi).

(** Some label of the index lies within [buf] of [c]. *)
Definition in_box (c : Q) (labs : list Label) : bool :=
  existsb (λ l, label_leb (LNum (c - buf)) l && label_leb l (LNum (c + buf)))
          labs.

Definition ds_tx (ds : Dataset) : result Dataset :=
  DS.sel [("lon", (austin_lon - buf, austin_lon + buf)%Q);
          ("lat", (austin_lat - buf, austin_lat + buf)%Q)] ds.

Definition pcp_ann_max (ds : Dataset) : result (DataArray Value) :=
  tx ← ds_tx ds;
  pcp ← DS.getitem "pcp" tx;
  rs ← RS.resample "time" AS pcp;
  RS.max "time" rs.

Definition pcp_ann_max_ts (ds : Dataset) : result (DataArray Value) :=
  m ← pcp_ann_max ds;
  DA.persist 0 <$> DA.max ["lat"; "lon"] m.

(** [pcp_ann_max_ts.transpose()]: the dimensions in reverse order. *)
Definition transpose {V} (a : DataArray V) : DataArray V :=
  mkDA (rev (axes a)) (values a).

(** What [to_pandas()] builds: the constructor is chosen by the number of
    dimensions. *)
Inductive Pandas :=
  | PScalar | PSeries | PDataFrame | PPanel.

Definition to_pandas {V} (a : DataArray V) : result Pandas :=
  match length (dims a) with
  | 0 => Ok PScalar
  | 1 => Ok PSeries
  | 2 => Ok PDataFrame
  | 3 => Ok PPanel
  | _ => Raise ValueError
  end.

(** The input of the last figure. *)
Definition austin_figure (ds : Dataset) : result Pandas :=
  ts ← pcp_ann_max_ts ds;
  to_pandas (transpose ts).

(** * The session: global names, and the one kind of mutable object

    The arrays of the notebook are never written in place; what the
    notebook mutates is the [attrs] dictionary of an array.  A dictionary
    lives at an address of the [store]; an array object carries the
    address of its dictionary.  [ds[name]] is a view: it shares the
    dictionary of the dataset's variable.  Every other operation builds a
    new object with a dictionary of its own, a copy of its operand's where
    the library keeps attributes and an empty one where it drops them. *)

Abbreviation Attrs := (list (string * string)).

Inductive Obj :=
  | ODataset (ds : Dataset) (var_attrs : list (string * nat))
  | OArray (a : DataArray Value) (attrs : nat)
  | OFloat (q : Q)
  | OFigure.

Record Session := mkSession {
  store : list Attrs;
  names : list (string * Obj)
}.

(** A statement runs in a session; what it did before raising stays. *)
Definition M (A : Type) : Type := Session → Session * result A.

#[global] Instance M_ret : MRet M := λ A a s, (s, Ok a).
#[global] Instance M_bind : MBind M := λ A B f m s,
  match m s with
  | (s', Ok a) => f a s'
  | (s', Raise e) => (s', Raise e)
  end.

Definition lift {A} (r : result A) : M A := λ s, (s, r).

(** Reading and binding a global name. *)
Definition get (x : string) : M Obj := λ s,
  (s, match assoc x (names s) with Some o => Ok o | None => Raise NameError end).

Definition set (x : string) (o : Obj) : M unit := λ s,
  (mkSession (store s) ((x, o) :: names s), Ok tt).

Abbreviation Arr := (DataArray Value * nat)%type.
Abbreviation Dset := (Dataset * list (string * nat))%type.

Definition get_array (x : string) : M Arr :=
  o ← get x;
  match o with
  | OArray a ar => mret (a, ar)
  | _ => lift (Raise TypeError)
  end.

Definition get_dataset (x : string) : M Dset :=
  o ← get x;
  match o with
  | ODataset d va => mret (d, va)
  | _ => lift (Raise TypeError)
  end.

Definition set_array (x : string) (a : Arr) : M unit := set x (OArray a.1 a.2).

(** A new dictionary. *)
Definition fresh (kv : Attrs) : M nat := λ s,
  (mkSession (store s ++ [kv]) (names s), Ok (length (store s))).

Definition attrs_of (ar : nat) : M Attrs := λ s,
  (s, Ok (default [] (store s !! ar))).

Fixpoint dict_set (k v : string) (kv : Attrs) : Attrs :=
  match kv with
  | [] => [(k, v)]
  | (k', v') :: r =>
      if String.eqb k' k then (k, v) :: r else (k', v') :: dict_set k v r
  end.

Definition update (ar : nat) (f : Attrs → Attrs) : M unit := λ s,
  (mkSession (alter f ar (store s)) (names s), Ok tt).

(** [x.attrs[k] = v] *)
Definition set_attr (x k v : string) : M unit :=
  a ← get_array x;
  update a.2 (dict_set k v).

(** [ds[name]]: a view of the variable. *)
Definition getitem (name : string) (d : Dset) : M Arr :=
  a ← lift (DS.getitem name d.1);
  match assoc name d.2 with
  | Some ar => mret (a, ar)
  | None => lift (Raise KeyError)
  end.

(** A method that keeps the attributes of its operand. *)
Definition keeping (f : DataArray Value → result (DataArray Value))
    (x : Arr) : M Arr :=
  a ← lift (f x.1);
  kv ← attrs_of x.2;
  ar ← fresh kv;
  mret (a, ar).

(** The result of an operation that drops attributes. *)
Definition dropping (r : result (DataArray Value)) : M Arr :=
  a ← lift r;
  ar ← fresh [];
  mret (a, ar).

(** [ds.sel(...)] on a dataset: every variable is a new object. *)
Fixpoint copy_attrs (va : list (string * nat)) : M (list (string * nat)) :=
  match va with
  | [] => mret []
  | (x, ar) :: r =>
      kv ← attrs_of ar;
      ar' ← fresh kv;
      r' ← copy_attrs r;
      mret ((x, ar') :: r')
  end.

Definition dataset_sel (indexers : list (string * (Q * Q))) (d : Dset)
    : M Dset :=
  d' ← lift (DS.sel indexers d.1);
  va ← copy_attrs d.2;
  mret (d', va).

(** Rendering draws on the display and leaves the session as it is. *)
Definition plot (a : Arr) : M unit := mret tt.
Definition title (t : string) : M unit := mret tt.

(** ** The analyses of the notebook, cell by cell *)

Definition analysis_elevation : M unit :=
  ds ← get_dataset "ds";
  elev ← getitem "elevation" ds;
  (if mem "ensemble" (dims elev.1) then
     ds ← get_dataset "ds";
     elev ← getitem "elevation" ds;
     member0 ← keeping (DA.isel "ensemble" 0) elev;
     elevation ← keeping (λ a, Ok (DA.persist 0 a)) member0;
     set_array "elevation" elevation
   else
     ds ← get_dataset "ds";
     elev ← getitem "elevation" ds;
     elevation ← keeping (λ a, Ok (DA.persist 0 a)) elev;
     set_array "elevation" elevation);;
  elevation ← get_array "elevation";
  positive ← (e ← get_array "elevation"; mret (DA.gt e.1 0));
  masked ← keeping (λ a, Ok (DA.where_ a positive)) elevation;
  set_array "elevation" masked;;
  elevation ← get_array "elevation";
  plot elevation;;
  title "Domain Elevation".

Definition analysis_uncertainty (sqrtQ : Q → Q) : M unit :=
  ds ← get_dataset "ds";
  t_mean ← getitem "t_mean" ds;
  temp ← keeping (DA.sel "time" (LDate (mkDate 1984 7 31))) t_mean;
  set_array "temp" temp;;
  temp ← get_array "temp";
  temp_ens_mean ← dropping (DA.mean ["ensemble"] temp.1);
  set_array "temp_ens_mean" temp_ens_mean;;
  temp ← get_array "temp";
  temp_ens_mean ← get_array "temp_ens_mean";
  temp_errors ← dropping (Ok (DA.sub temp.1 temp_ens_mean.1));
  set_array "temp_errors" temp_errors;;
  temp_errors ← get_array "temp_errors";
  temp_std_errors ← dropping (DA.std sqrtQ ["ensemble"] temp_errors.1);
  set_array "temp_std_errors" temp_std_errors;;
  temp_std_errors ← get_array "temp_std_errors";
  plot temp_std_errors.

Definition analysis_spread : M unit :=
  ds ← get_dataset "ds";
  t_mean ← getitem "t_mean" ds;
  temp_mean ← dropping (DA.mean ["time"] t_mean.1);
  set_array "temp_mean" temp_mean;;
  temp_mean ← get_array "temp_mean";
  hi ← dropping (DA.max ["ensemble"] temp_mean.1);
  temp_mean ← get_array "temp_mean";
  lo ← dropping (DA.min ["ensemble"] temp_mean.1);
  spread ← dropping (Ok (DA.sub hi.1 lo.1));
  set_array "spread" spread;;
  spread ← get_array "spread";
  spread ← keeping (λ a, Ok (DA.persist 2 a)) spread;
  set_array "spread" spread;;
  set_attr "spread" "units" "degC";;
  spread ← get_array "spread";
  plot spread;;
  title "Intra-ensemble range in mean annual temperature".

Definition analysis_snow : M unit :=
  ds ← get_dataset "ds";
  pcp ← getitem "pcp" ds;
  ds ← get_dataset "ds";
  t_mean ← getitem "t_mean" ds;
  freezing ← keeping (λ a, Ok (DA.where_ a (DA.lt t_mean.1 0))) pcp;
  rs ← lift (RS.resample "time" QS_Mar freezing.1);
  da_snow ← dropping (RS.sum "time" rs);
  set_array "da_snow" da_snow;;
  da_snow ← get_array "da_snow";
  first4 ← keeping (DA.isel_slice "ensemble" 0 4) da_snow;
  gb ← lift (GB.groupby_season "time" first4.1);
  means ← dropping (GB.mean "time" gb);
  seasonal_snow ← keeping (λ a, Ok (DA.persist 0 a)) means;
  set_array "seasonal_snow" seasonal_snow;;
  seasonal_snow ← get_array "seasonal_snow";
  seasonal_snow ← keeping (DA.sel_list "season" season_order) seasonal_snow;
  set_array "seasonal_snow" seasonal_snow;;
  set_attr "seasonal_snow" "units" "mm/season";;
  seasonal_snow ← get_array "seasonal_snow";
  plot seasonal_snow.

Definition analysis_austin : M unit :=
  set "buf" (OFloat buf);;
  ds ← get_dataset "ds";
  ds_tx ← dataset_sel [("lon", (austin_lon - buf, austin_lon + buf)%Q);
                       ("lat", (austin_lat - buf, austin_lat + buf)%Q)] ds;
  set "ds_tx" (ODataset ds_tx.1 ds_tx.2);;
  ds_tx ← get_dataset "ds_tx";
  pcp ← getitem "pcp" ds_tx;
  rs ← lift (RS.resample "time" AS pcp.1);
  pcp_ann_max ← dropping (RS.max "time" rs);
  set_array "pcp_ann_max" pcp_ann_max;;
  pcp_ann_max ← get_array "pcp_ann_max";
  reduced ← dropping (DA.max ["lat"; "lon"] pcp_ann_max.1);
  pcp_ann_max_ts ← keeping (λ a, Ok (DA.persist 0 a)) reduced;
  set_array "pcp_ann_max_ts" pcp_ann_max_ts;;
  pcp_ann_max_ts ← get_array "pcp_ann_max_ts";
  transposed ← keeping (λ a, Ok (transpose a)) pcp_ann_max_ts;
  _ ← lift (to_pandas transposed.1);
  set "ax" OFigure.

Inductive Analysis :=
  | Elevation | Uncertainty | Spread | Snow | Austin.

Definition run_analysis (sqrtQ : Q → Q) (an : Analysis) : M unit :=
  match an with
  | Elevation => analysis_elevation
  | Uncertainty => analysis_uncertainty sqrtQ
  | Spread => analysis_spread
  | Snow => analysis_snow
  | Austin => analysis_austin
  end.

(** The analyses run one after the other; an analysis that raises stops,
    and the next one starts from the session it left. *)
Definition run_all (sqrtQ : Q → Q) (order : list Analysis) (s : Session)
    : Session :=
  foldl (λ s an, (run_analysis sqrtQ an s).1) s order.

(** The session after [ds = xr.open_zarr(gcsmap)]: the dataset, and the
    dictionaries of its variables. *)
Definition load (ds : Dataset) (var_attrs : list (string * nat))
    (store0 : list Attrs) : Session :=
  mkSession store0 [("ds", ODataset ds var_attrs)].

(** The array a name stands for, as a function of the dataset. *)
Definition cell_of (sqrtQ : Q → Q) (x : string)
    : option (Dataset → result (DataArray Value)) :=
  assoc x [("elevation", elevation); ("temp", temp);
           ("temp_ens_mean", temp_ens_mean); ("temp_errors", temp_errors);
           ("temp_std_errors", temp_std_errors sqrtQ);
           ("temp_mean", temp_mean); ("spread", spread);
           ("da_snow", da_snow); ("pcp_ann_max", pcp_ann_max);
           ("pcp_ann_max_ts", pcp_ann_max_ts)].

(** ** What the session keeps

    [denotes x a]: the array [a] is the one the name [x] stands for, as a
    function of the dataset.  [seasonal_snow] is bound twice; the second
    binding is the one that stays, unless the re-indexing raised. *)
Definition denotes (sqrtQ : Q → Q) (ds0 : Dataset) (x : string)
    (a : DataArray Value) : Prop :=
  if String.eqb x "seasonal_snow" then
    match seasonal_snow ds0 with
    | Ok r => a = r
    | Raise _ => seasonal_snow_0 ds0 = Ok a
    end
  else
    match cell_of sqrtQ x with
    | Some f => f ds0 = Ok a
    | None => False
    end.

(** A binding of a name other than [ds]: an array has a dictionary that
    was made after the dataset was loaded. *)
Definition good (sqrtQ : Q → Q) (ds0 : Dataset) (store0 : list Attrs)
    (x : string) (o : Obj) : Prop :=
  x ≠ "ds" ∧
  match o with
  | OArray a ar => length store0 ≤ ar ∧ denotes sqrtQ ds0 x a
  | ODataset d _ => x = "ds_tx" ∧ ds_tx ds0 = Ok d
  | OFloat _ | OFigure => True
  end.

Definition InvN (sqrtQ : Q → Q) (ds0 : Dataset) (va : list (string * nat))
    (store0 : list Attrs) (ns : list (string * Obj)) : Prop :=
  assoc "ds" ns = Some (ODataset ds0 va)
  ∧ ∀ x o, x ≠ "ds" → assoc x ns = Some o → good sqrtQ ds0 store0 x o.

Definition InvS (store0 st : list Attrs) : Prop :=
  take (length store0) st = store0.

Definition Inv (sqrtQ : Q → Q) (ds0 : Dataset) (va : list (string * nat))
    (store0 : list Attrs) (s : Session) : Prop :=
  InvN sqrtQ ds0 va store0 (names s) ∧ InvS store0 (store s).

(** A variable of a reduced dataset keeps its name, and its axes but
    for the dimensions [ds]. *)
Definition keeps_axes (ds : list string) (v v' : string * DataArray Value)
    : Prop :=
  v'.1 = v.1 ∧ axes v'.2 = drop_axes ds (axes v.2).

(** The positions of the time index [dates] that fall in period [p]. *)
Definition times_in (f : Freq) (dates : list Date) (p : Z) : list nat :=
  List.filter
    (λ i, match dates !! i with
          | Some d => (period f d =? p)%Z
          | None => false
          end)
    (seq 0 (length dates)).

(** * A small dataset to run the cells on *)

Module Sample.

Definition times : list Label :=
  map LDate [mkDate 1983 12 30; mkDate 1984 1 15; mkDate 1984 7 31;
             mkDate 1984 10 2; mkDate 1986 4 1].
Definition lats : list Label := [LNum 30; LNum (302 # 10); LNum 31].
Definition members : list Label :=
  map (λ n, LNum (inject_Z (Z.of_nat n))) (seq 0 100).

Definition cell (e : Env) : Z :=
  Z.of_nat (e !!! "time" + 2 * e !!! "lat" + 3 * e !!! "lon"
            + 5 * e !!! "ensemble").

(** Temperatures in [-6, 6]; the grid point at the third latitude and
    the first longitude is outside the domain, its cells are NaN. *)
Definition t_mean (lons : list Label) : DataArray Value :=
  mkDA [("time", times); ("lat", lats); ("lon", lons); ("ensemble", members)]
       (λ e, if (e !!! "lat" =? 2) && (e !!! "lon" =? 0) then None
             else Some (inject_Z (cell e mod 13 - 6))).

Definition pcp (lons : list Label) : DataArray Value :=
  mkDA [("time", times); ("lat", lats); ("lon", lons); ("ensemble", members)]
       (λ e, Some (inject_Z (cell e mod 7) / 2)%Q).

Definition elev (lons : list Label) : DataArray Value :=
  mkDA [("ensemble", members); ("lat", lats); ("lon", lons)]
       (λ e, Some (inject_Z (100 * Z.of_nat (e !!! "lat")
                             - 50 * Z.of_nat (e !!! "lon")))).

Definition make (lons : list Label) : Dataset :=
  [("pcp", pcp lons); ("t_mean", t_mean lons); ("elevation", elev lons)].

(** A grid around Austin, and one on the west coast. *)
Definition lons : list Label := [LNum (-98); LNum (- (977 # 10))].
Definition lons_west : list Label := [LNum (-125); LNum (- (1245 # 10))].

Definition ds : Dataset := make lons.
Definition ds_west : Dataset := make lons_west.

(** A dataset that covers a single winter. *)
Definition winter : list Label :=
  map LDate [mkDate 1983 12 30; mkDate 1984 1 15].

Definition ds_winter : Dataset :=
  [("pcp", mkDA [("time", winter); ("ensemble", members)]
                (λ e, Some (inject_Z (cell e mod 7))));
   ("t_mean", mkDA [("time", winter); ("ensemble", members)]
                   (λ e, Some (inject_Z (cell e mod 13 - 6))))].

(** The square root, rounded down to three decimals. *)
Definition sqrt3 (x : Q) : Q :=
  Z.sqrt (Qnum x * 1000000 / Zpos (Qden x)) # 1000.

(** The cells of an array, in row-major order of its axes. *)
Definition cells {V} (a : DataArray V) : list V :=
  gather (dims a) (axes a) (values a) ∅.

End Sample.


(** * Properties *)

Lemma mem_true (d : string) (l : list string) : mem d l = true ↔ d ∈ l.
Proof.
  unfold mem. rewrite existsb_exists. split.
  - intros (x & Hx & E). apply String.eqb_eq in E. subst x.
    by apply list_elem_of_In.
  - intros H. exists d. split; [by apply list_elem_of_In|apply String.eqb_refl].
Qed.

Lemma mem_false (d : string) (l : list string) : mem d l = false ↔ d ∉ l.
Proof.
  rewrite <- mem_true. destruct (mem d l); split; congruence.
Qed.

Lemma dims_drop_axes (ds : list string) (ax : Axes) :
  (drop_axes ds ax).*1 = List.filter (λ d, negb (mem d ds)) ax.*1.
Proof.
  induction ax as [|[k v] ax IH]; [done|].
  cbn [drop_axes List.filter fmap list_fmap fst]. 
  change (List.filter (λ p : string * list Label, negb (mem p.1 ds)) ax) with (drop_axes ds ax).
  destruct (mem k ds); cbn; by rewrite <- IH.
Qed.

Lemma coord_drop_axes (d : string) (ds : list string) (ax : Axes) :
  mem d ds = false → coord d (drop_axes ds ax) = coord d ax.
Proof.
  intros Hd. unfold coord. f_equal.
  induction ax as [|[k v] ax IH]; simpl; [done|].
  destruct (String.eqb k d) eqn:E.
  - apply String.eqb_eq in E. subst k. rewrite Hd. simpl.
    by rewrite String.eqb_refl.
  - destruct (mem k ds); simpl; [done|]. by rewrite E.
Qed.

Lemma drop_axes_nil_iff (ds : list string) (ax : Axes) :
  (∀ d, d ∈ ax.*1 → d ∈ ds) → drop_axes ds ax = [].
Proof.
  induction ax as [|[k v] ax IH]; intros H; [done|].
  cbn. assert (mem k ds = true) as ->.
  { apply mem_true, H. cbn. left. }
  cbn. apply IH. intros d Hd. apply H. cbn. by right.
Qed.

Lemma drop_axes_self (ax : Axes) : drop_axes ax.*1 ax = [].
Proof. by apply drop_axes_nil_iff. Qed.

Lemma elem_of_list_filter {A} (p : A → bool) (l : list A) (x : A) :
  x ∈ List.filter p l ↔ x ∈ l ∧ p x = true.
Proof. by rewrite !list_elem_of_In, filter_In. Qed.

Lemma NoDup_list_filter {A} (p : A → bool) (l : list A) :
  NoDup l → NoDup (List.filter p l).
Proof.
  induction 1 as [|x l Hx Hl IH]; cbn; [constructor|].
  destruct (p x); [|done]. constructor; [|done].
  rewrite elem_of_list_filter. by intros [? _].
Qed.

Lemma drop_axes_absent (ds : list string) (ax : Axes) :
  (∀ d, d ∈ ds → d ∉ ax.*1) → drop_axes ds ax = ax.
Proof.
  induction ax as [|[k v] ax IH]; intros H; [done|].
  cbn. destruct (mem k ds) eqn:E.
  - apply mem_true in E. destruct (H _ E). cbn. left.
  - cbn. f_equal. apply IH. intros d Hd Hin. apply (H d Hd). cbn. by right.
Qed.

Lemma Qltb_true (x y : Q) : Qltb x y = true ↔ (x < y)%Q.
Proof.
  unfold Qltb. rewrite negb_true_iff, <- not_true_iff_false, Qle_bool_iff.
  split; [apply Qnot_le_lt|apply Qlt_not_le].
Qed.

Lemma Qltb_false (x y : Q) : Qltb x y = false ↔ (y <= x)%Q.
Proof.
  unfold Qltb. rewrite negb_false_iff. apply Qle_bool_iff.
Qed.

Lemma reduce_axes (f : list Value → Value) (ds : list string)
    (a r : DataArray Value) :
  DA.reduce f ds a = Ok r →
  axes r = drop_axes ds (axes a) ∧ (∀ d, d ∈ ds → d ∈ dims a) ∧ nodupb ds = true.
Proof.
  unfold DA.reduce. destruct (forallb _ ds && nodupb ds) eqn:E; [|done].
  intros [= <-]. apply andb_true_iff in E as [E1 E2]. split_and!; [done| |done].
  intros d Hd. rewrite forallb_forall in E1.
  apply mem_true, E1. by apply list_elem_of_In.
Qed.

Lemma reduce_nonempty_axes (f : list Value → Value) (ds : list string)
    (a r : DataArray Value) :
  DA.reduce_nonempty f ds a = Ok r →
  axes r = drop_axes ds (axes a) ∧ (∀ d, d ∈ ds → d ∈ dims a) ∧ nodupb ds = true.
Proof.
  unfold DA.reduce_nonempty.
  destruct (DA.reduce f ds a) as [r'|] eqn:E; [|done]. cbn.
  destruct (existsb _ ds); [done|]. intros [= <-]. by apply reduce_axes in E.
Qed.

Lemma nodupb_NoDup (l : list string) : nodupb l = true ↔ NoDup l.
Proof.
  induction l as [|x l IH]; cbn.
  - split; [constructor|done].
  - rewrite andb_true_iff, negb_true_iff, mem_false, IH, NoDup_cons. done.
Qed.

Lemma reduce_ok (f : list Value → Value) (ds : list string)
    (a : DataArray Value) :
  (∀ d, d ∈ ds → d ∈ dims a) → NoDup ds → is_ok (DA.reduce f ds a) = true.
Proof.
  intros H1 H2. unfold DA.reduce.
  assert (forallb (λ d, has_dim d a) ds = true) as ->.
  { apply forallb_forall. intros d Hd. apply mem_true, H1. by apply list_elem_of_In. }
  apply nodupb_NoDup in H2 as ->. done.
Qed.

Lemma reduce_nonempty_ok (f : list Value → Value) (ds : list string)
    (a : DataArray Value) :
  (∀ d, d ∈ ds → d ∈ dims a) → NoDup ds →
  (∀ d, d ∈ ds → axis_len d (axes a) ≠ 0) →
  is_ok (DA.reduce_nonempty f ds a) = true.
Proof.
  intros H1 H2 H3. unfold DA.reduce_nonempty.
  pose proof (reduce_ok f ds a H1 H2) as Hok.
  destruct (DA.reduce f ds a) as [r|]; [|done]. cbn [mbind result_bind].
  destruct (existsb _ ds) eqn:E; [|done].
  apply existsb_exists in E as (d & Hd & Hz). apply Nat.eqb_eq in Hz.
  destruct (H3 d); [by apply list_elem_of_In|done].
Qed.

(** *** Reductions of a dataset *)

Lemma mapM_result_inv {A B} (f : A → result B) (l : list A) (l' : list B) :
  mapM f l = Ok l' → Forall2 (λ x y, f x = Ok y) l l'.
Proof.
  revert l'. induction l as [|x l IH]; intros l'; cbn.
  - intros [= <-]. constructor.
  - destruct (f x) as [y|] eqn:Hy; [|done]. cbn.
    destruct (mapM f l) as [k|]; [|done]. cbn. intros [= <-].
    constructor; [done|]. by apply IH.
Qed.

Lemma mapM_result_ok {A B} (f : A → result B) (l : list A) :
  Forall (λ x, is_ok (f x) = true) l → is_ok (mapM f l) = true.
Proof.
  induction 1 as [|x l Hx _ IH]; [done|]. cbn.
  destruct (f x); [|done]. cbn. by destruct (mapM f l).
Qed.

Lemma drop_axes_own (ds : list string) (ax : Axes) :
  drop_axes (List.filter (λ d, mem d ds) ax.*1) ax = drop_axes ds ax.
Proof.
  unfold drop_axes. apply filter_ext_in. intros [k v] Hin. cbn. f_equal.
  destruct (mem k ds) eqn:E.
  - apply mem_true, list_elem_of_In, filter_In. split; [|done].
    apply in_map_iff. by exists (k, v).
  - apply mem_false. intros (_ & H)%list_elem_of_In%filter_In. congruence.
Qed.

Lemma assoc_drop_axes (d : string) (ds : list string) (ax : Axes) :
  d ∉ ds → assoc d (drop_axes ds ax) = assoc d ax.
Proof.
  intros Hd%mem_false.
  induction ax as [|[k v] ax IH]; simpl; [done|].
  destruct (String.eqb k d) eqn:E.
  - apply String.eqb_eq in E. subst k. rewrite Hd. simpl.
    by rewrite String.eqb_refl.
  - destruct (mem k ds); simpl; [done|]. by rewrite E.
Qed.

Lemma elem_of_ds_dims (d : string) (dset : Dataset) :
  d ∈ DS.dims dset ↔ ∃ v, v ∈ dset ∧ d ∈ dims v.2.
Proof.
  unfold DS.dims. rewrite elem_of_remove_dups, list_elem_of_join. split.
  - intros (l & Hd & (v & <- & Hv)%list_elem_of_In%in_map_iff).
    exists v. split; [by apply list_elem_of_In|done].
  - intros (v & Hv & Hd). exists (axes v.2).*1. split; [done|].
    apply list_elem_of_In, in_map_iff. exists v.
    split; [done|by apply list_elem_of_In].
Qed.

Lemma ds_reduce_inv
    (red : list string → DataArray Value → result (DataArray Value))
    (ds : list string) (dset r : Dataset) :
  (∀ ds' a a', red ds' a = Ok a' → axes a' = drop_axes ds' (axes a)) →
  DS.reduce red ds dset = Ok r → Forall2 (keeps_axes ds) dset r.
Proof.
  intros Hred. unfold DS.reduce. destruct (forallb _ ds); [|done].
  intros H%mapM_result_inv. eapply Forall2_impl; [exact H|].
  intros v v'. cbn beta.
  destruct (red _ v.2) as [a'|] eqn:Ha; [|done]. cbn. intros [= <-].
  split; [done|]. cbn. apply Hred in Ha. by rewrite Ha, drop_axes_own.
Qed.

Lemma ds_reduce_ok
    (red : list string → DataArray Value → result (DataArray Value))
    (ds : list string) (dset : Dataset) :
  (∀ d, d ∈ ds → d ∈ DS.dims dset) →
  (∀ v, v ∈ dset →
     is_ok (red (List.filter (λ d, mem d ds) (dims v.2)) v.2) = true) →
  is_ok (DS.reduce red ds dset) = true.
Proof.
  intros H1 H2. unfold DS.reduce.
  assert (forallb (λ d, mem d (DS.dims dset)) ds = true) as ->.
  { apply forallb_forall. intros d Hd. apply mem_true, H1.
    by apply list_elem_of_In. }
  apply mapM_result_ok, Forall_forall. intros v Hv.
  specialize (H2 v Hv). unfold dims in H2.
  by destruct (red _ v.2).
Qed.

Lemma own_dims (ds : list string) (a : DataArray Value) :
  NoDup (dims a) →
  (∀ d, d ∈ List.filter (λ d, mem d ds) (dims a) → d ∈ dims a)
  ∧ NoDup (List.filter (λ d, mem d ds) (dims a)).
Proof.
  intros Hn. split; [|by apply NoDup_list_filter].
  by intros d (H & _)%elem_of_list_filter.
Qed.

Lemma keeps_axes_names (ds : list string) (dset r : Dataset) :
  Forall2 (keeps_axes ds) dset r → r.*1 = dset.*1.
Proof.
  induction 1 as [|v v' dset r [H _] _ IH]; [done|]. cbn. by rewrite H, IH.
Qed.

Lemma keeps_axes_index (ds : list string) (dset r : Dataset) (d : string) :
  d ∉ ds → Forall2 (keeps_axes ds) dset r → DS.index d r = DS.index d dset.
Proof.
  intros Hd H. unfold DS.index. f_equal.
  induction H as [|v v' dset r [_ H] _ IH]; [done|]. cbn.
  by rewrite H, assoc_drop_axes, IH.
Qed.

Lemma keeps_axes_assoc (ds : list string) (dset r : Dataset) (x : string)
    (a : DataArray Value) :
  Forall2 (keeps_axes ds) dset r → assoc x dset = Some a →
  ∃ a', assoc x r = Some a' ∧ axes a' = drop_axes ds (axes a).
Proof.
  induction 1 as [|[k v] [k' v'] dset r [H1 H2] _ IH]; [done|].
  cbn in H1, H2. subst k'. cbn. destruct (String.eqb k x); [|done].
  intros [= <-]. by exists v'.
Qed.

Lemma keeps_axes_dims (ds : list string) (dset r : Dataset) (d : string) :
  Forall2 (keeps_axes ds) dset r →
  d ∈ DS.dims r ↔ d ∈ DS.dims dset ∧ d ∉ ds.
Proof.
  intros H. rewrite !elem_of_ds_dims.
  assert (∀ v v', keeps_axes ds v v' → d ∈ dims v'.2 ↔ d ∈ dims v.2 ∧ d ∉ ds)
    as Hk.
  { intros v v' [_ Hax]. unfold dims. rewrite Hax, dims_drop_axes.
    rewrite list_elem_of_In, filter_In, negb_true_iff, mem_false.
    by rewrite <- list_elem_of_In. }
  split.
  - intros (v' & Hv' & Hd). apply list_elem_of_lookup in Hv' as (i & Hi).
    destruct (Forall2_lookup_r _ _ _ _ _ H Hi) as (v & Hv & Hvv).
    destruct (proj1 (Hk _ _ Hvv) Hd) as [Hd' Hn]. split; [|done].
    exists v. split; [|done]. by eapply list_elem_of_lookup_2.
  - intros [(v & Hv & Hd) Hn]. apply list_elem_of_lookup in Hv as (i & Hi).
    destruct (Forall2_lookup_l _ _ _ _ _ H Hi) as (v' & Hv' & Hvv).
    exists v'. split; [by eapply list_elem_of_lookup_2|].
    by apply (proj2 (Hk _ _ Hvv)).
Qed.

(** C4.  A reduction (mean, standard deviation, minimum or maximum) over
    the dimensions [ds] returns a result whose dimensions are those of the
    input without [ds], and whose retained dimensions carry the
    coordinate labels they had.  For an array: the dimensions are those
    of the input without [ds], in the same order; mean and standard
    deviation succeed whenever [ds] are distinct dimensions of the array,
    minimum and maximum whenever, in addition, none of them is empty.
    For a dataset: the variables keep their names, the dimension set is
    that of the input without [ds], the index of every retained dimension
    is unchanged, and every variable loses exactly the dimensions of [ds]
    it had; the four reductions succeed under the same conditions. *)
Theorem C4_reduction_dims (sqrtQ : Q → Q) (ds : list string) :
  (∀ a : DataArray Value,
     (∀ r, DA.mean ds a = Ok r ∨ DA.std sqrtQ ds a = Ok r
           ∨ DA.min ds a = Ok r ∨ DA.max ds a = Ok r →
        (∀ d, d ∈ dims r ↔ d ∈ dims a ∧ d ∉ ds)
        ∧ dims r = List.filter (λ d, negb (mem d ds)) (dims a)
        ∧ (∀ d, d ∉ ds → coord d (axes r) = coord d (axes a)))
     ∧ ((∀ d, d ∈ ds → d ∈ dims a) → NoDup ds →
        is_ok (DA.mean ds a) = true ∧ is_ok (DA.std sqrtQ ds a) = true
        ∧ ((∀ d, d ∈ ds → axis_len d (axes a) ≠ 0) →
           is_ok (DA.min ds a) = true ∧ is_ok (DA.max ds a) = true)))
  ∧ (∀ dset : Dataset,
       (∀ r, DS.mean ds dset = Ok r ∨ DS.std sqrtQ ds dset = Ok r
             ∨ DS.min ds dset = Ok r ∨ DS.max ds dset = Ok r →
          r.*1 = dset.*1
          ∧ (∀ d, d ∈ DS.dims r ↔ d ∈ DS.dims dset ∧ d ∉ ds)
          ∧ (∀ d, d ∉ ds → DS.index d r = DS.index d dset)
          ∧ (∀ x a, assoc x dset = Some a →
               ∃ a', assoc x r = Some a'
                 ∧ dims a' = List.filter (λ d, negb (mem d ds)) (dims a)
                 ∧ ∀ d, d ∉ ds → coord d (axes a') = coord d (axes a)))
       ∧ ((∀ d, d ∈ ds → d ∈ DS.dims dset) →
          (∀ v, v ∈ dset → NoDup (dims v.2)) →
          is_ok (DS.mean ds dset) = true
          ∧ is_ok (DS.std sqrtQ ds dset) = true
          ∧ ((∀ v d, v ∈ dset → d ∈ ds → d ∈ dims v.2 →
                axis_len d (axes v.2) ≠ 0) →
             is_ok (DS.min ds dset) = true
             ∧ is_ok (DS.max ds dset) = true))).
Proof.
  assert (∀ ds' (a r : DataArray Value),
            DA.mean ds' a = Ok r ∨ DA.std sqrtQ ds' a = Ok r
            ∨ DA.min ds' a = Ok r ∨ DA.max ds' a = Ok r →
            axes r = drop_axes ds' (axes a)) as Hax.
  { intros ds' a r [H|[H|[H|H]]];
      (apply reduce_axes in H || apply reduce_nonempty_axes in H);
      by destruct H. }
  split.
  - intros a. split.
    + intros r H. apply Hax in H.
      assert (dims r = List.filter (λ d, negb (mem d ds)) (dims a)) as Hd.
      { unfold dims. rewrite H. apply dims_drop_axes. }
      split_and!; [|done|].
      * intros d.
        rewrite Hd, list_elem_of_In, filter_In, negb_true_iff, mem_false.
        by rewrite <- list_elem_of_In.
      * intros d Hn. rewrite H. by apply coord_drop_axes, mem_false.
    + intros H1 H2. split_and!; [by apply reduce_ok..|].
      intros H3. split; by apply reduce_nonempty_ok.
  - intros dset. split.
    + intros r H.
      assert (Forall2 (keeps_axes ds) dset r) as Hk.
      { destruct H as [H|[H|[H|H]]];
          (eapply ds_reduce_inv; [|exact H]); intros ds' a a' Ha;
          apply Hax; auto. }
      split_and!.
      * by apply (keeps_axes_names ds).
      * intros d. by apply keeps_axes_dims.
      * intros d Hd. by apply (keeps_axes_index ds).
      * intros x a Hx.
        destruct (keeps_axes_assoc _ _ _ _ _ Hk Hx) as (a' & Ha' & Haxes).
        exists a'. split; [done|]. split.
        -- unfold dims. rewrite Haxes. apply dims_drop_axes.
        -- intros d Hn. rewrite Haxes. by apply coord_drop_axes, mem_false.
    + intros H1 H2. split_and!.
      * apply ds_reduce_ok; [done|]. intros v Hv.
        destruct (own_dims ds v.2 (H2 v Hv)). by apply reduce_ok.
      * apply ds_reduce_ok; [done|]. intros v Hv.
        destruct (own_dims ds v.2 (H2 v Hv)). by apply reduce_ok.
      * intros H3.
        assert (∀ f v, v ∈ dset →
                  is_ok (DA.reduce_nonempty f
                           (List.filter (λ d, mem d ds) (dims v.2)) v.2)
                  = true) as Hne.
        { intros f v Hv. destruct (own_dims ds v.2 (H2 v Hv)) as [Ho Hn].
          apply reduce_nonempty_ok; [done..|].
          intros d Hd. pose proof (Ho d Hd) as Hin.
          apply elem_of_list_filter in Hd as [_ Hd%mem_true].
          by apply (H3 v d). }
        split; (apply ds_reduce_ok; [done|]); intros v Hv; by apply Hne.
Qed.

Lemma where_gt_axes (a : DataArray Value) (q : Q) :
  axes (DA.where_ a (DA.gt a q)) = axes a.
Proof.
  unfold DA.where_, DA.binop, DA.gt, dims. cbn [axes].
  rewrite drop_axes_self. apply app_nil_r.
Qed.

(** C10.  The plotted elevation is member 0 of the elevation variable when
    the variable has an ensemble dimension, and the variable itself
    otherwise; a cell whose elevation is at most 0 (or missing) is missing
    in the result, and a cell whose elevation is above 0 keeps its value. *)
Theorem C10_elevation_member0_masked (ds : Dataset) (elev : DataArray Value) :
  DS.getitem "elevation" ds = Ok elev →
  (mem "ensemble" (dims elev) = true → axis_len "ensemble" (axes elev) ≠ 0) →
  let src : Env → Value :=
    λ e, if mem "ensemble" (dims elev)
         then values elev (upd "ensemble" 0 e) else values elev e in
  ∃ r, elevation ds = Ok r
    ∧ axes r = drop_axes ["ensemble"] (axes elev)
    ∧ ∀ e, match src e with
           | Some x => ((x <= 0)%Q → values r e = None)
                       ∧ ((0 < x)%Q → values r e = Some x)
           | None => values r e = None
           end.
Proof.
  intros Hget Hlen src. unfold elevation, elevation_0. rewrite Hget. cbn.
  subst src. cbn. destruct (mem "ensemble" (dims elev)) eqn:Hm.
  - unfold DA.isel, has_dim. rewrite Hm.
    specialize (Hlen eq_refl).
    assert (py_index 0 (axis_len "ensemble" (axes elev)) = Some 0) as ->.
    { unfold py_index. destruct (axis_len "ensemble" (axes elev)); [done|].
      cbn. done. }
    cbn [fmap result_fmap]. eexists. split; [done|]. split.
    + by rewrite where_gt_axes.
    + intros e. cbn. destruct (values elev (upd "ensemble" 0 e)) as [x|]; [|done].
      split; intros Hx.
      * apply Qltb_false in Hx. by rewrite Hx.
      * apply Qltb_true in Hx. by rewrite Hx.
  - eexists. split; [done|]. split.
    + rewrite where_gt_axes. unfold DA.persist. symmetry.
      apply drop_axes_absent. intros d ->%list_elem_of_singleton.
      by apply mem_false.
    + intros e. unfold DA.persist. cbn.
      destruct (values elev e) as [x|]; [|done].
      split; intros Hx.
      * apply Qltb_false in Hx. by rewrite Hx.
      * apply Qltb_true in Hx. by rewrite Hx.
Qed.

Lemma upd_upd (d : string) (i j : nat) (e : Env) :
  upd d j (upd d i e) = upd d j e.
Proof. apply insert_insert_eq. Qed.

Lemma upd_comm (d d' : string) (i j : nat) (e : Env) :
  d ≠ d' → upd d i (upd d' j e) = upd d' j (upd d i e).
Proof. intros. by apply insert_insert_ne. Qed.

Lemma upd_lookup (d : string) (i : nat) (e : Env) : upd d i e !!! d = i.
Proof. apply lookup_total_insert_eq. Qed.

Lemma upd_lookup_ne (d d' : string) (i : nat) (e : Env) :
  d ≠ d' → upd d i e !!! d' = e !!! d'.
Proof. intros. by apply lookup_total_insert_ne. Qed.

Lemma gather_one {V} (d : string) (ax : Axes) (f : Env → V) (e : Env) :
  gather [d] ax f e = map (λ i, f (upd d i e)) (seq 0 (axis_len d ax)).
Proof.
  cbn. induction (seq 0 (axis_len d ax)) as [|i l IH]; cbn; [done|]. by rewrite IH.
Qed.

Lemma Qsum_nonneg (l : list Q) : Forall (λ x, (0 <= x)%Q) l → (0 <= Qsum l)%Q.
Proof.
  induction 1 as [|x l Hx _ IH]; cbn; [apply Qle_refl|].
  change 0%Q with (0 + 0)%Q at 1. by apply Qplus_le_compat.
Qed.

Lemma Qmean_nonneg (l : list Q) : Forall (λ x, (0 <= x)%Q) l → (0 <= Qmean l)%Q.
Proof.
  intros H. unfold Qmean. destruct l as [|x l].
  - cbn. done.
  - apply Qle_shift_div_l.
    + change 0%Q with (inject_Z 0). rewrite <- Zlt_Qlt. cbn [length]. lia.
    + rewrite Qmult_0_l. by apply Qsum_nonneg.
Qed.

Lemma Qvar_nonneg (l : list Q) : (0 <= Qvar l)%Q.
Proof.
  apply Qmean_nonneg, Forall_forall. intros y Hy.
  apply list_elem_of_In, in_map_iff in Hy as (x & <- & _).
  generalize (x - Qmean l)%Q. intros z. nra.
Qed.

Lemma present_nil (l : list Value) : present l = [] ↔ ∀ v, v ∈ l → v = None.
Proof.
  unfold present. induction l as [|[x|] l IH]; cbn.
  - split; [|done]. intros _ v Hv. by apply elem_of_nil in Hv.
  - split; [done|]. intros H. specialize (H (Some x)). 
    discriminate H. left.
  - rewrite IH. split.
    + intros H v [->|Hv]%elem_of_cons; auto.
    + intros H v Hv. apply H. by right.
Qed.

Lemma present_cons_inv (l : list Value) (x : Q) (r : list Q) :
  present l = x :: r → ∃ v, v ∈ l ∧ v ≠ None.
Proof.
  intros H. destruct (decide (Forall (λ v, v = None) l)) as [Hall|Hn].
  - rewrite Forall_forall in Hall. apply present_nil in Hall. congruence.
  - apply not_Forall_Exists in Hn; [|apply _].
    apply Exists_exists in Hn as (v & Hv & Hne). eauto.
Qed.

Lemma has_dim_drop_axes {V} (d : string) (ds : list string) (ax : Axes) (f g : Env → V) :
  has_dim d (mkDA (drop_axes ds ax) f) = has_dim d (mkDA ax g) && negb (mem d ds).
Proof.
  unfold has_dim, dims. cbn [axes]. rewrite dims_drop_axes.
  destruct (mem d ds) eqn:Hd.
  - rewrite andb_false_r. apply mem_false. rewrite list_elem_of_In, filter_In.
    intros [_ H]. apply negb_true_iff in H. congruence.
  - rewrite andb_true_r. destruct (mem d ax.*1) eqn:E.
    + apply mem_true. apply mem_true in E. rewrite list_elem_of_In, filter_In.
      split; [by apply list_elem_of_In|]. by rewrite Hd.
    + apply mem_false. apply mem_false in E. rewrite list_elem_of_In, filter_In.
      intros [H _]. by apply list_elem_of_In in H.
Qed.

Section Uncertainty.
Variable sqrtQ : Q → Q.
Hypothesis sqrtQ_nonneg : ∀ x, (0 <= x)%Q → (0 <= sqrtQ x)%Q.

Lemma temp_std_errors_spec (ds : Dataset) (t_mean : DataArray Value) (i : nat) :
  DS.getitem "t_mean" ds = Ok t_mean →
  "time" ∈ dims t_mean → "ensemble" ∈ dims t_mean →
  positions (label_eqb (LDate (mkDate 1984 7 31)))
            (coord "time" (axes t_mean)) = [i] →
  ∃ r, temp_std_errors sqrtQ ds = Ok r
    ∧ axes r = drop_axes ["ensemble"] (drop_axes ["time"] (axes t_mean))
    ∧ ∀ e,
        let member k := values t_mean (upd "time" i (upd "ensemble" k e)) in
        let n := axis_len "ensemble" (axes t_mean) in
        match values r e with
        | Some x => (0 <= x)%Q ∧ ∃ k, k < n ∧ member k ≠ None
        | None => ∀ k, k < n → member k = None
        end.
Proof.
  intros Hget Ht He Hpos.
  unfold temp_std_errors, temp_errors, temp_ens_mean, temp. rewrite Hget.
  cbn [mbind result_bind]. unfold DA.sel.
  apply mem_true in Ht as Ht'. unfold has_dim. rewrite Ht', Hpos.
  cbn [mbind result_bind].
  set (tmp := at_position "time" i t_mean).
  assert (has_dim "ensemble" tmp = true) as Hens.
  { unfold tmp, at_position. destruct t_mean as [ax f].
    rewrite (has_dim_drop_axes _ _ _ _ f). apply andb_true_iff. split; [|done].
    by apply mem_true. }
  unfold DA.mean, DA.std, DA.reduce.
  cbn [forallb nodupb mem existsb andb negb]. rewrite Hens.
  cbn [andb mbind result_bind].
  set (mn := mkDA (drop_axes ["ensemble"] (axes tmp)) _).
  assert (axes (DA.sub tmp mn) = axes tmp) as Hax.
  { unfold DA.sub, DA.binop. cbn [axes]. rewrite drop_axes_nil_iff; [apply app_nil_r|].
    intros d. unfold mn, dims. cbn [axes].
    rewrite dims_drop_axes, list_elem_of_In, filter_In.
    intros [H _]. by apply list_elem_of_In. }
  assert (has_dim "ensemble" (DA.sub tmp mn) = true) as ->.
  { unfold has_dim, dims. rewrite Hax. exact Hens. }
  cbn [andb]. eexists. split; [done|]. split.
  { cbn [axes]. by rewrite Hax. }
  intros e. cbv zeta.
  set (member := λ k, values t_mean (upd "time" i (upd "ensemble" k e))).
  set (n := axis_len "ensemble" (axes t_mean)). cbn [values].
  rewrite gather_one, Hax.
  assert (axis_len "ensemble" (axes tmp) = n) as Hn.
  { unfold axis_len, tmp, at_position. cbn [axes]. by rewrite coord_drop_axes. }
  rewrite Hn.
  set (errs := map _ (seq 0 n)).
  set (obs := map (λ k, member k) (seq 0 n)).
  assert (∀ k, values tmp (upd "ensemble" k e) = member k) as Htmp.
  { intros k. done. }
  assert (∀ k, values mn (upd "ensemble" k e) = nanmean obs) as Hmn.
  { intros k. unfold mn. cbn [values]. rewrite gather_one, Hn.
    unfold obs. f_equal. apply map_ext. intros j. by rewrite upd_upd. }
  assert (errs = map (λ k, match member k, nanmean obs with
                           | Some p, Some q => Some (p - q)%Q
                           | _, _ => None
                           end) (seq 0 n)) as ->.
  { unfold errs. apply map_ext. intros k. unfold DA.sub, DA.binop. cbn [values].
    by rewrite Hmn, Htmp. }
  unfold nanstd.
  destruct (present (map _ (seq 0 n))) as [|x l] eqn:Hp.
  - intros k Hk. rewrite present_nil in Hp.
    destruct (member k) as [p|] eqn:Hm; [|done].
    assert (∃ q, nanmean obs = Some q) as [q Hq].
    { unfold nanmean. destruct (present obs) as [|y l'] eqn:Hobs; [|eauto].
      rewrite present_nil in Hobs. specialize (Hobs (Some p)).
      discriminate Hobs. apply list_elem_of_In, in_map_iff. exists k.
      split; [done|]. apply in_seq. lia. }
    specialize (Hp (Some (p - q)%Q)). discriminate Hp.
    apply list_elem_of_In, in_map_iff. exists k. rewrite Hm, Hq.
    split; [done|]. apply in_seq. lia.
  - split; [apply sqrtQ_nonneg, Qvar_nonneg|].
    apply present_cons_inv in Hp as (v & Hv & Hne).
    apply list_elem_of_In, in_map_iff in Hv as (k & <- & Hk).
    apply in_seq in Hk. exists k. split; [lia|].
    intros Hm. apply Hne. change (member k = None) in Hm. by rewrite Hm.
Qed.

End Uncertainty.

Lemma elem_of_positions_from (k : nat) (p : Label → bool) (labs : list Label) (i : nat) :
  i ∈ positions_from k p labs ↔
  k ≤ i ∧ ∃ l, labs !! (i - k) = Some l ∧ p l = true.
Proof.
  revert k. induction labs as [|l labs IH]; intros k; cbn.
  - split; [by intros ?%elem_of_nil|]. by intros (_ & l & ? & _).
  - rewrite elem_of_app, IH. split.
    + intros [H|(Hk & l' & Hl & Hp)].
      * destruct (p l) eqn:Hp; [|by apply elem_of_nil in H].
        apply list_elem_of_singleton in H as ->. split; [lia|].
        exists l. by rewrite Nat.sub_diag.
      * split; [lia|]. exists l'. split; [|done].
        replace (i - k) with (S (i - S k)) by lia. done.
    + intros (Hk & l' & Hl & Hp).
      destruct (decide (i = k)) as [->|Hne].
      * rewrite Nat.sub_diag in Hl. injection Hl as ->. rewrite Hp.
        left. by apply list_elem_of_singleton.
      * right. split; [lia|]. exists l'. split; [|done].
        replace (i - k) with (S (i - S k)) in Hl by lia. done.
Qed.

Lemma elem_of_positions (p : Label → bool) (labs : list Label) (i : nat) :
  i ∈ positions p labs ↔ ∃ l, labs !! i = Some l ∧ p l = true.
Proof.
  unfold positions. rewrite elem_of_positions_from, Nat.sub_0_r.
  split; [by intros [_ ?]|]. intros H. split; [lia|done].
Qed.

Lemma positions_nil (p : Label → bool) (labs : list Label) :
  (∀ l, l ∈ labs → p l = false) → positions p labs = [].
Proof.
  intros H. destruct (positions p labs) as [|i ps] eqn:E; [done|].
  assert (i ∈ positions p labs) as Hi by (rewrite E; left).
  apply elem_of_positions in Hi as (l & Hl & Hp).
  rewrite H in Hp; [done|]. by eapply list_elem_of_lookup_2.
Qed.

Lemma count_le (p q : Label → bool) (labs : list Label) :
  (∀ l, l ∈ labs → p l = true → q l = true) → count p labs ≤ count q labs.
Proof.
  unfold count. induction labs as [|l labs IH]; intros H; cbn; [done|].
  assert (length (List.filter p labs) ≤ length (List.filter q labs)) as IH'.
  { apply IH. intros l' Hl'. apply H. by right. }
  destruct (p l) eqn:Hp.
  - rewrite (H l); [cbn; lia|left|done].
  - destruct (q l); cbn; lia.
Qed.

Lemma coord_set_axis (d d' : string) (labs : list Label) (ax : Axes) :
  d ∈ ax.*1 → (d' ∈ ax.*1 → d' = d) → coord d' (set_axis d d' labs ax) = labs.
Proof.
  unfold coord. induction ax as [|[k v] ax IH]; cbn; intros Hd Hd'.
  - by apply elem_of_nil in Hd.
  - destruct (String.eqb k d) eqn:E; cbn.
    + by rewrite String.eqb_refl.
    + destruct (String.eqb k d') eqn:E'.
      * apply String.eqb_eq in E'. subst k. rewrite Hd' in E; [|left].
        by rewrite String.eqb_refl in E.
      * apply IH.
        -- apply elem_of_cons in Hd as [->|Hd]; [|done].
           by rewrite String.eqb_refl in E.
        -- intros H. apply Hd'. by right.
Qed.

Lemma coord_set_axis_ne (d d' x : string) (labs : list Label) (ax : Axes) :
  x ≠ d → x ≠ d' → coord x (set_axis d d' labs ax) = coord x ax.
Proof.
  intros H1 H2. unfold coord, set_axis. f_equal.
  induction ax as [|[k v] ax IH]; cbn; [done|].
  destruct (String.eqb k d) eqn:E; cbn.
  - apply String.eqb_eq in E as ->.
    apply String.eqb_neq in H1, H2. rewrite String.eqb_sym in H1.
    rewrite String.eqb_sym in H2. by rewrite H1, H2.
  - by rewrite IH.
Qed.

Lemma dims_set_axis_same (d : string) (labs : list Label) (ax : Axes) :
  (set_axis d d labs ax).*1 = ax.*1.
Proof.
  induction ax as [|[k v] ax IH]; cbn; [done|]. f_equal; [|done].
  destruct (String.eqb k d) eqn:E; [|done]. by apply String.eqb_eq in E.
Qed.

Lemma dims_set_axis (d d' : string) (labs : list Label) (ax : Axes) :
  (set_axis d d' labs ax).*1 = map (λ x, if String.eqb x d then d' else x) ax.*1.
Proof.
  induction ax as [|[k v] ax IH]; cbn; [done|]. f_equal; [|done].
  by destruct (String.eqb k d).
Qed.

Lemma slice_positions_empty (lo hi : Q) (labs : list Label) :
  forallb is_num labs = true → sortedb label_leb labs = true →
  (∀ q, LNum q ∈ labs → ¬ (lo <= q ∧ q <= hi)%Q) →
  slice_positions lo hi labs = Ok [].
Proof.
  intros Hnum Hs Hout. unfold slice_positions. rewrite Hnum, Hs.
  cbn [negb]. cbv zeta.
  assert (count (λ l, label_leb l (LNum hi)) labs
          ≤ count (λ l, negb (label_leb (LNum lo) l)) labs) as Hle.
  { apply count_le. intros [q| |] Hl; cbn; try done.
    intros Hq. apply Qle_bool_iff in Hq. apply negb_true_iff.
    apply not_true_iff_false. intros Hq'%Qle_bool_iff.
    by apply (Hout q). }
  apply Nat.sub_0_le in Hle. by rewrite Hle.
Qed.

Lemma label_eqb_str (s : string) (l : Label) :
  label_eqb (LStr s) l = true → l = LStr s.
Proof. destruct l; cbn; try done. by intros ->%String.eqb_eq. Qed.

Lemma take_positions_axes {V} (d : string) (ps : list nat) (a : DataArray V) :
  has_dim d a = true →
  coord d (axes (take_positions d ps a))
    = omap (λ i, coord d (axes a) !! i) ps
  ∧ dims (take_positions d ps a) = dims a
  ∧ ∀ x, x ≠ d → coord x (axes (take_positions d ps a)) = coord x (axes a).
Proof.
  intros Hd. apply mem_true in Hd. unfold take_positions, dims. cbn [axes].
  split_and!.
  - by apply coord_set_axis.
  - apply dims_set_axis_same.
  - intros x Hx. by apply coord_set_axis_ne.
Qed.

Lemma sel_list_spec {V} (d : string) (labs : list Label) (a r : DataArray V) :
  (∀ l l', l ∈ labs → label_eqb l l' = true → l' = l) →
  DA.sel_list d labs a = Ok r →
  coord d (axes r) = labs ∧ dims r = dims a
  ∧ (∀ x, x ≠ d → coord x (axes r) = coord x (axes a))
  ∧ ∀ e lab, labs !! (e !!! d) = Some lab →
      ∃ p, coord d (axes a) !! p = Some lab ∧ values r e = values a (upd d p e).
Proof.
  intros Hstr. unfold DA.sel_list. destruct (has_dim d a) eqn:Hd; [|done].
  destruct (forallb _ _); [|done].
  destruct (mapM _ labs) as [ps|] eqn:Hm; [|done]. intros [= <-].
  apply mapM_Some in Hm.
  destruct (take_positions_axes d ps a Hd) as (Hc & Hdims & Hother).
  assert (∀ k lab p, labs !! k = Some lab → ps !! k = Some p →
            coord d (axes a) !! p = Some lab) as Hpos.
  { intros k lab p Hl Hp.
    pose proof (Forall2_lookup_lr _ _ _ _ _ _ Hm Hl Hp) as Hh.
    assert (p ∈ positions (label_eqb lab) (coord d (axes a))) as Hin.
    { cbv beta in Hh. destruct (positions _ _) as [|p0 ps0]; cbn in Hh; [done|].
      injection Hh as ->. left. }
    apply elem_of_positions in Hin as (l' & Hl' & He).
    rewrite Hl'. f_equal. apply Hstr; [|done]. by eapply list_elem_of_lookup_2. }
  split_and!; [|done|done|].
  - rewrite Hc. clear Hc Hdims Hother.
    revert Hpos. induction Hm as [|l p labs' ps' Hh Hm IH]; intros Hpos; [done|].
    cbn. rewrite (Hpos 0 l p eq_refl eq_refl). cbn. f_equal. apply IH.
    + intros l0 l' Hl0. apply Hstr. by right.
    + intros k lab q Hl Hq. by apply (Hpos (S k)).
  - intros e lab Hl.
    destruct (ps !! (e !!! d)) as [p|] eqn:Hp.
    + exists p. split; [by eapply Hpos|]. cbn.
      by rewrite (nth_lookup_Some _ _ _ _ Hp).
    + apply lookup_ge_None in Hp. apply lookup_lt_Some in Hl.
      apply Forall2_length in Hm. lia.
Qed.

Lemma seasonal_snow_0_seasons (ds : Dataset) (s : DataArray Value) :
  seasonal_snow_0 ds = Ok s →
  ∃ keys, coord "season" (axes s) = map LStr (unique_seasons keys)
    ∧ has_dim "season" s = true.
Proof.
  unfold seasonal_snow_0.
  destruct (da_snow ds) as [snow|]; [|done]. cbn [mbind result_bind].
  destruct (DA.isel_slice _ _ _ snow) as [first4|]; [|done].
  cbn [mbind result_bind].
  unfold GB.groupby_season. destruct (has_dim "time" first4) eqn:Ht; [|done].
  destruct (mapM _ _) as [[|d0 dates]|]; [done| |done].
  cbn [mbind result_bind].
  unfold GB.mean, GB.reduce. cbn [gb_obj gb_dim gb_keys].
  destruct (has_dim "season" first4) eqn:Hs; [done|].
  rewrite String.eqb_refl. cbn [fmap result_fmap].
  intros [= <-]. exists (map season_of (d0 :: dates)).
  unfold DA.persist, GB.group_labels. cbn [axes gb_keys]. split.
  - apply coord_set_axis; [by apply mem_true|].
    intros H. apply mem_true in H. unfold has_dim, dims in Hs. congruence.
  - unfold has_dim, dims. cbn [axes]. rewrite dims_set_axis. apply mem_true.
    apply mem_true in Ht. apply list_elem_of_In, in_map_iff. exists "time".
    split; [done|]. by apply list_elem_of_In.
Qed.

Lemma sel_list_seasons_ok {V} (keys : list string) (a : DataArray V) :
  has_dim "season" a = true →
  coord "season" (axes a) = map LStr (unique_seasons keys) →
  (∀ l, l ∈ season_order → l ∈ coord "season" (axes a)) →
  is_ok (DA.sel_list "season" season_order a) = true.
Proof.
  intros Hd Hc Hall. unfold DA.sel_list. rewrite Hd, Hc.
  rewrite Hc in Hall. unfold unique_seasons, sorted_seasons in *.
  cbn [List.filter] in *.
  assert (∀ s (l : list string), LStr s ∈ map LStr l → s ∈ l) as Hin.
  { intros s l H. apply list_elem_of_In, in_map_iff in H as (t & [= ->] & H).
    by apply list_elem_of_In. }
  assert (LStr "DJF" ∈ season_order ∧ LStr "MAM" ∈ season_order
          ∧ LStr "JJA" ∈ season_order ∧ LStr "SON" ∈ season_order)
    as (H1 & H2 & H3 & H4) by (split_and!; repeat constructor).
  apply Hall, Hin in H1, H2, H3, H4.
  destruct (mem "DJF" keys), (mem "JJA" keys), (mem "MAM" keys),
    (mem "SON" keys); try reflexivity; exfalso.
  all: repeat match goal with
       | H : _ ∈ _ :: _ |- _ => apply elem_of_cons in H as [H|H]; [discriminate H|]
       | H : _ ∈ [] |- _ => by apply elem_of_nil in H
       end.
Qed.

(** C6.  The seasonal snowfall that is rendered has its season coordinate
    in the order DJF, MAM, JJA, SON.  The grouping itself yields the
    seasons it found in sorted (alphabetical) order; the order shown comes
    from the re-indexing step applied to the grouped array, which succeeds
    when the four seasons are present and reads each season's values from
    the position that season had in the grouped array. *)
Theorem C6_season_order (ds : Dataset) :
  (∀ r, seasonal_snow ds = Ok r → coord "season" (axes r) = season_order)
  ∧ (∀ s, seasonal_snow_0 ds = Ok s →
       (∃ keys, coord "season" (axes s) = map LStr (unique_seasons keys))
       ∧ seasonal_snow ds = DA.sel_list "season" season_order s
       ∧ ((∀ l, l ∈ season_order → l ∈ coord "season" (axes s)) →
          ∃ r, seasonal_snow ds = Ok r
            ∧ ∀ e lab, season_order !! (e !!! "season") = Some lab →
                ∃ p, coord "season" (axes s) !! p = Some lab
                  ∧ values r e = values s (upd "season" p e))).
Proof.
  assert (∀ l l', l ∈ season_order → label_eqb l l' = true → l' = l) as Hstr.
  { intros l l' Hl. unfold season_order in Hl.
    repeat (apply elem_of_cons in Hl as [->|Hl]; [apply label_eqb_str|]).
    by apply elem_of_nil in Hl. }
  split.
  - intros r. unfold seasonal_snow.
    destruct (seasonal_snow_0 ds) as [s|]; [|done]. cbn. intros Hr.
    by apply sel_list_spec in Hr as (? & _).
  - intros s Hs. unfold seasonal_snow. rewrite Hs. cbn.
    destruct (seasonal_snow_0_seasons ds s Hs) as (keys & Hk & Hd).
    split_and!; [by exists keys|done|].
    intros Hall. pose proof (sel_list_seasons_ok keys s Hd Hk Hall) as Hok.
    destruct (DA.sel_list "season" season_order s) as [r|] eqn:Hr; [|done].
    exists r. split; [done|]. intros e lab Hl.
    apply sel_list_spec in Hr as (_ & _ & _ & Hv); [|done]. by apply Hv.
Qed.

Lemma resample_inv (d : string) (f : Freq) (a : DataArray Value) (rs : Resample) :
  RS.resample d f a = Ok rs →
  has_dim d a = true
  ∧ ∃ d0 dates,
      mapM as_date (coord d (axes a)) = Some (d0 :: dates)
      ∧ sortedb date_leb (d0 :: dates) = true
      ∧ rs = mkRS a d f (map (period f) (d0 :: dates)) (period f d0)
               (Z.to_nat (period f (List.last dates d0) - period f d0 + 1)).
Proof.
  unfold RS.resample. destruct (has_dim d a); [|done].
  destruct (mapM as_date _) as [[|d0 dates]|]; [done| |done].
  destruct (sortedb date_leb (d0 :: dates)) eqn:Hs; [|done].
  intros [= <-]. split; [done|]. by exists d0, dates.
Qed.

Lemma bin_positions_times (a : DataArray Value) (d : string) (f : Freq)
    (dates : list Date) (p0 : Z) (n k : nat) :
  RS.bin_positions (mkRS a d f (map (period f) dates) p0 n) k
  = times_in f dates (p0 + Z.of_nat k).
Proof.
  unfold RS.bin_positions, times_in. cbn [rs_periods rs_first].
  rewrite length_map. apply filter_ext. intros i.
  change (map (period f) dates) with (period f <$> dates).
  rewrite list_lookup_fmap. by destruct (dates !! i).
Qed.

Lemma rs_reduce_inv (g : list Value → Value) (d : string) (rs : Resample)
    (r : DataArray Value) :
  RS.reduce g d rs = Ok r →
  d = rs_dim rs
  ∧ axes r = set_axis d d (RS.bin_labels rs) (axes (rs_obj rs))
  ∧ ∀ e, values r e =
      match RS.bin_positions rs (e !!! d) with
      | [] => None
      | ps => g (map (λ i, values (rs_obj rs) (upd d i e)) ps)
      end.
Proof.
  unfold RS.reduce. destruct (String.eqb d (rs_dim rs)) eqn:E; [|done].
  apply String.eqb_eq in E. intros [= <-]. done.
Qed.

Lemma quarter_start_month (p : Z) :
  ∃ y m, period_start QS_Mar p = mkDate y m 1 ∧ m ∈ [3; 6; 9; 12]%Z.
Proof.
  eexists _, _. split; [done|].
  pose proof (Z.mod_pos_bound p 4 eq_refl) as H.
  assert (p mod 4 = 0 ∨ p mod 4 = 1 ∨ p mod 4 = 2 ∨ p mod 4 = 3)%Z
    as [ -> | [ -> | [ -> | -> ] ] ] by lia; cbn; repeat constructor.
Qed.

Lemma omap_lookup_seq {A} (l : list A) (n : nat) :
  n ≤ length l → omap (λ i, l !! i) (seq 0 n) = take n l.
Proof.
  induction n as [|n IH]; intros Hn; [done|].
  rewrite seq_S, omap_app, IH by lia. cbn.
  destruct (l !! n) as [x|] eqn:Hx.
  - cbn. by rewrite (take_S_r _ _ _ Hx).
  - apply lookup_ge_None in Hx. lia.
Qed.

Lemma nth_seq_0 (j m : nat) : j < m → nth j (seq 0 m) 0 = j.
Proof. intros. by rewrite seq_nth. Qed.

Lemma isel_slice_first (d : string) (k : nat) (a r : DataArray Value) :
  DA.isel_slice d 0 (Z.of_nat k) a = Ok r →
  has_dim d a = true
  ∧ coord d (axes r) = take k (coord d (axes a))
  ∧ dims r = dims a
  ∧ (∀ x, x ≠ d → coord x (axes r) = coord x (axes a))
  ∧ ∀ e, e !!! d < length (coord d (axes r)) →
      values r e = values a (upd d (e !!! d) e).
Proof.
  unfold DA.isel_slice. destruct (has_dim d a) eqn:Hd; [|done].
  intros [= <-]. split; [done|].
  assert (py_clamp 0 (axis_len d (axes a)) = 0) as -> by done.
  assert (py_clamp (Z.of_nat k) (axis_len d (axes a))
          = Nat.min k (axis_len d (axes a))) as ->.
  { unfold py_clamp. destruct (Z.ltb_spec (Z.of_nat k) 0); [lia|].
    by rewrite Nat2Z.id. }
  rewrite Nat.sub_0_r.
  destruct (take_positions_axes d (seq 0 (Nat.min k (axis_len d (axes a)))) a Hd)
    as (Hc & Hdims & Hother).
  rewrite omap_lookup_seq in Hc by (unfold axis_len; lia).
  assert (take (Nat.min k (axis_len d (axes a))) (coord d (axes a))
          = take k (coord d (axes a))) as Ht.
  { unfold axis_len. destruct (decide (k ≤ length (coord d (axes a)))).
    - by rewrite Nat.min_l.
    - rewrite Nat.min_r by lia. rewrite !take_ge by lia. done. }
  rewrite Ht in Hc. split_and!; [done..|].
  intros e He. rewrite Hc, length_take in He. cbn.
  rewrite nth_seq_0; [done|]. unfold axis_len. lia.
Qed.

Lemma mapM_as_date_lookup (labs : list Label) (dates : list Date) (i : nat) :
  mapM as_date labs = Some dates →
  dates !! i = match labs !! i with Some (LDate d) => Some d | _ => None end.
Proof.
  intros H%mapM_Some. revert i. induction H as [|l d labs dates Hl H IH]; intros i.
  - done.
  - destruct i as [|i]; cbn.
    + by destruct l; simplify_eq/=.
    + apply IH.
Qed.

Lemma gb_mean_inv (d : string) (a s : DataArray Value) (gb : GroupBy) :
  GB.groupby_season d a = Ok gb → GB.mean d gb = Ok s →
  has_dim d a = true ∧ has_dim "season" a = false
  ∧ axes s = set_axis d "season" (map LStr (GB.group_labels gb)) (axes a)
  ∧ coord "season" (axes s) = map LStr (GB.group_labels gb)
  ∧ ∀ e, values s e =
      nanmean
        (map (λ b, values a (upd d b e))
           (List.filter
              (λ b, match coord d (axes a) !! b,
                          coord "season" (axes s) !! (e !!! "season") with
                    | Some (LDate dt), Some (LStr t) => String.eqb (season_of dt) t
                    | _, _ => false
                    end)
              (seq 0 (axis_len d (axes a))))).
Proof.
  unfold GB.groupby_season. destruct (has_dim d a) eqn:Hd; [|done].
  destruct (mapM as_date _) as [dates|] eqn:Hm; [|done].
  destruct dates as [|d0 dates]; [done|]. intros [= <-].
  unfold GB.mean, GB.reduce. cbn [gb_obj gb_dim gb_keys].
  destruct (has_dim "season" a) eqn:Hs; [done|]. rewrite String.eqb_refl.
  intros [= <-]. unfold GB.group_positions. cbn [axes values gb_keys].
  set (gl := GB.group_labels _).
  assert (coord "season" (set_axis d "season" (map LStr gl) (axes a))
          = map LStr gl) as Hc.
  { apply coord_set_axis; [by apply mem_true|].
    intros H. apply mem_true in H. unfold has_dim, dims in Hs. congruence. }
  split_and!; [done..|].
  clearbody gl. intros e. f_equal. f_equal. rewrite Hc.
  change (season_of d0 :: map season_of dates)
    with (season_of <$> (d0 :: dates)).
  assert (length (season_of <$> (d0 :: dates)) = axis_len d (axes a)) as ->.
  { rewrite length_fmap. apply length_mapM in Hm. unfold axis_len. lia. }
  apply filter_ext. intros b.
  rewrite list_lookup_fmap, (mapM_as_date_lookup _ _ b Hm).
  change (map LStr gl) with (LStr <$> gl). rewrite list_lookup_fmap.
  destruct (coord d (axes a) !! b) as [[| dt |]|]; cbn; try done.
  by destruct (gl !! (e !!! "season")).
Qed.

Lemma count_le_length (p : Label → bool) (labs : list Label) :
  count p labs ≤ length labs.
Proof. unfold count. apply filter_length_le. Qed.

Lemma count_lt (p q : Label → bool) (labs : list Label) :
  (∀ l, l ∈ labs → p l = true → q l = true) →
  (∃ l, l ∈ labs ∧ q l = true ∧ p l = false) →
  count p labs < count q labs.
Proof.
  unfold count. induction labs as [|l labs IH]; intros H (l0 & Hl0 & Hq & Hp).
  - by apply elem_of_nil in Hl0.
  - cbn. apply elem_of_cons in Hl0 as [->|Hl0].
    + rewrite Hq, Hp. cbn.
      assert (count p labs ≤ count q labs); [|unfold count in *; lia].
      apply count_le. intros l' Hl'. apply H. by right.
    + assert (length (List.filter p labs) < length (List.filter q labs)) as IH'.
      { apply IH; [|by exists l0]. intros l' Hl'. apply H. by right. }
      destruct (p l) eqn:Hpl.
      * rewrite (H l); [cbn; lia|left|done].
      * destruct (q l); cbn; lia.
Qed.

(** On an increasing numeric index, a label range selects a block of
    positions inside the index, which is not empty when a label lies in
    the range. *)
Lemma slice_positions_sorted (lo hi : Q) (labs : list Label) :
  forallb is_num labs = true → sortedb label_leb labs = true →
  ∃ s n, slice_positions lo hi labs = Ok (seq s n)
    ∧ s + n ≤ length labs
    ∧ (existsb (λ l, label_leb (LNum lo) l && label_leb l (LNum hi)) labs = true
       → n ≠ 0).
Proof.
  intros Hnum Hs. unfold slice_positions. rewrite Hnum, Hs. cbn [negb]. cbv zeta.
  eexists _, _. split; [done|]. split.
  - pose proof (count_le_length (λ l, label_leb l (LNum hi)) labs).
    pose proof (count_le_length (λ l, negb (label_leb (LNum lo) l)) labs). lia.
  - intros (l0 & Hl0 & Hin)%existsb_exists. apply list_elem_of_In in Hl0.
    apply andb_true_iff in Hin as [H1 H2].
    assert (count (λ l, negb (label_leb (LNum lo) l)) labs
            < count (λ l, label_leb l (LNum hi)) labs); [|lia].
    apply count_lt.
    + intros l Hl Hlt. rewrite forallb_forall in Hnum.
      specialize (Hnum l ltac:(by apply list_elem_of_In)).
      destruct l as [q| |]; try done. destruct l0 as [q0| |]; try done.
      cbn in *. apply negb_true_iff, not_true_iff_false in Hlt.
      rewrite Qle_bool_iff in Hlt. apply Qle_bool_iff in H1, H2.
      apply Qle_bool_iff. lra.
    + exists l0. split; [done|]. split; [done|]. by rewrite H1.
Qed.

Lemma length_omap_lookup_seq {A} (l : list A) (s n : nat) :
  s + n ≤ length l → length (omap (λ i, l !! i) (seq s n)) = n.
Proof.
  revert s. induction n as [|n IH]; intros s Hn; [done|]. cbn.
  destruct (l !! s) eqn:Hs.
  - cbn. rewrite IH; [done|lia].
  - apply lookup_ge_None in Hs. lia.
Qed.

Lemma assoc_isel_positions (name d : string) (ps : list nat) (ds : Dataset) :
  assoc name (DS.isel_positions d ps ds)
  = (λ a, if has_dim d a then take_positions d ps a else a) <$> assoc name ds.
Proof.
  unfold DS.isel_positions. induction ds as [|[k v] ds IH]; cbn; [done|].
  by destruct (String.eqb k name).
Qed.

Lemma has_dim_take_positions {V} (x d : string) (ps : list nat) (a : DataArray V) :
  has_dim x (take_positions d ps a) = has_dim x a.
Proof.
  unfold has_dim, dims, take_positions. cbn [axes].
  by rewrite dims_set_axis_same.
Qed.

Lemma coord_take_positions {V} (d : string) (s n : nat) (a : DataArray V) :
  has_dim d a = true → s + n ≤ axis_len d (axes a) →
  axis_len d (axes (take_positions d (seq s n) a)) = n.
Proof.
  intros Hd Hn. destruct (take_positions_axes d (seq s n) a Hd) as (Hc & _).
  unfold axis_len. rewrite Hc. by apply length_omap_lookup_seq.
Qed.

Lemma coord_take_positions_ne {V} (x d : string) (ps : list nat) (a : DataArray V) :
  x ≠ d → coord x (axes (take_positions d ps a)) = coord x (axes a).
Proof.
  intros Hx. unfold take_positions. cbn [axes]. by apply coord_set_axis_ne.
Qed.

Lemma year_labels (y0 : Z) (n : nat) :
  map (λ k, LDate (period_start AS (y0 + Z.of_nat k))) (seq 0 n)
  = map (λ y, LDate (mkDate y 1 1)) (seqZ y0 (Z.of_nat n)).
Proof.
  unfold seqZ. rewrite Nat2Z.id.
  change (map ?f ?l) with (f <$> l). rewrite <- list_fmap_compose.
  apply list_fmap_ext. intros _ k _. cbn. do 2 f_equal. lia.
Qed.

Lemma date_leb_year (a b : Date) : date_leb a b = true → (year a <= year b)%Z.
Proof.
  unfold date_leb. intros [H|[H _]%andb_true_iff]%orb_true_iff; lia.
Qed.

Lemma sorted_years (d0 : Date) (dates : list Date) :
  sortedb date_leb (d0 :: dates) = true →
  Forall (λ d, (year d0 <= year d)%Z) dates.
Proof.
  revert d0. induction dates as [|d1 dates IH]; intros d0 Hs; [constructor|].
  cbn [sortedb] in Hs. apply andb_true_iff in Hs as [H1 H2].
  apply date_leb_year in H1. constructor; [done|].
  eapply Forall_impl; [by apply IH|]. cbn. intros d. lia.
Qed.

Lemma last_elem {A} (l : list A) (d : A) : l ≠ [] → List.last l d ∈ l.
Proof.
  induction l as [|x l IH]; [done|]. intros _.
  destruct l as [|y l]; [left|]. right. by apply IH.
Qed.

Lemma sorted_last_year (d0 : Date) (dates : list Date) :
  sortedb date_leb (d0 :: dates) = true →
  (year d0 <= year (List.last dates d0))%Z.
Proof.
  intros Hs%sorted_years. destruct dates as [|d1 dates]; [cbn; lia|].
  rewrite Forall_forall in Hs. by apply Hs, last_elem.
Qed.

Lemma index_is_Some (d : string) (ds : Dataset) (labs : list Label) :
  DS.index d ds = Some labs → bool_decide (is_Some (DS.index d ds)) = true.
Proof. intros ->. by apply bool_decide_eq_true. Qed.

Section Austin.
Variables (ds : Dataset) (pcp : DataArray Value).
Variables (d0 : Date) (dates : list Date).

Hypothesis Hpcp : DS.getitem "pcp" ds = Ok pcp.
Hypothesis Htime' : has_dim "time" pcp = true.
Hypothesis Hlat' : has_dim "lat" pcp = true.
Hypothesis Hlon' : has_dim "lon" pcp = true.
Hypothesis Hilat : DS.index "lat" ds = Some (coord "lat" (axes pcp)).
Hypothesis Hilon : DS.index "lon" ds = Some (coord "lon" (axes pcp)).
Hypothesis Hnlat : forallb is_num (coord "lat" (axes pcp)) = true.
Hypothesis Hnlon : forallb is_num (coord "lon" (axes pcp)) = true.
Hypothesis Hslat : sortedb label_leb (coord "lat" (axes pcp)) = true.
Hypothesis Hslon : sortedb label_leb (coord "lon" (axes pcp)) = true.
Hypothesis Hblat : in_box austin_lat (coord "lat" (axes pcp)) = true.
Hypothesis Hblon : in_box austin_lon (coord "lon" (axes pcp)) = true.
Hypothesis Hdates : mapM as_date (coord "time" (axes pcp)) = Some (d0 :: dates).
Hypothesis Hsorted : sortedb date_leb (d0 :: dates) = true.

Lemma pcp_ann_max_ts_spec :
  ∃ r, pcp_ann_max_ts ds = Ok r
    ∧ dims r = List.filter (λ d, negb (mem d ["lat"; "lon"])) (dims pcp)
    ∧ coord "time" (axes r)
      = map (λ y, LDate (mkDate y 1 1))
            (seqZ (year d0) (year (List.last dates d0) - year d0 + 1))
    ∧ ∀ x, x ∉ ["time"; "lat"; "lon"] → coord x (axes r) = coord x (axes pcp).
Proof using All.
  destruct (slice_positions_sorted (austin_lon - buf) (austin_lon + buf) _
              Hnlon Hslon) as (s1 & n1 & Hp1 & Hr1 & Hn1).
  destruct (slice_positions_sorted (austin_lat - buf) (austin_lat + buf) _
              Hnlat Hslat) as (s2 & n2 & Hp2 & Hr2 & Hn2).
  assert ("time" ∈ dims pcp) as Htime by by apply mem_true.
  specialize (Hn1 Hblon). specialize (Hn2 Hblat).
  unfold pcp_ann_max_ts, pcp_ann_max, ds_tx, DS.sel.
  cbn [forallb fst snd]. rewrite (index_is_Some _ _ _ Hilat), (index_is_Some _ _ _ Hilon).
  cbn [andb mapM fst snd]. rewrite Hilat, Hilon. cbn [default from_option id].
  rewrite Hp1, Hp2. cbn [mbind result_bind mret result_ret foldl fst snd].
  unfold DS.getitem at 1. rewrite !assoc_isel_positions.
  unfold DS.getitem in Hpcp. destruct (assoc "pcp" ds) as [a|] eqn:Ha; [|done].
  injection Hpcp as ->. cbn [fmap option_fmap option_map].
  rewrite Hlon', has_dim_take_positions, Hlat'. cbn [mbind result_bind].
  set (p1 := take_positions "lon" (seq s1 n1) pcp).
  set (p2 := take_positions "lat" (seq s2 n2) p1).
  assert (coord "time" (axes p2) = coord "time" (axes pcp)) as Hct.
  { unfold p2, p1. by rewrite !coord_take_positions_ne. }
  assert (dims p2 = dims pcp) as Hd2.
  { unfold p2, p1, dims, take_positions. cbn [axes].
    by rewrite !dims_set_axis_same. }
  unfold RS.resample. fold p1. fold p2.
  assert (has_dim "time" p2 = true) as ->.
  { unfold p2, p1. by rewrite !has_dim_take_positions. }
  rewrite Hct, Hdates, Hsorted.
  cbn [mbind result_bind]. unfold RS.max, RS.reduce. cbn [rs_dim rs_obj].
  rewrite String.eqb_refl. cbn [mbind result_bind].
  set (r1 := mkDA _ _).
  assert (dims r1 = dims pcp) as Hdr1.
  { unfold r1, dims. cbn [axes]. by rewrite dims_set_axis_same. }
  assert (axis_len "lat" (axes r1) = n2) as Hl1.
  { unfold r1, axis_len. cbn [axes]. rewrite coord_set_axis_ne by done.
    apply coord_take_positions; [unfold p1; by rewrite has_dim_take_positions|].
    unfold p1, axis_len. by rewrite coord_take_positions_ne. }
  assert (axis_len "lon" (axes r1) = n1) as Hl2.
  { unfold r1, axis_len. cbn [axes]. rewrite coord_set_axis_ne by done.
    unfold p2. rewrite coord_take_positions_ne by done.
    by apply coord_take_positions. }
  assert (has_dim "lat" r1 = true ∧ has_dim "lon" r1 = true) as [Hh1 Hh2].
  { unfold has_dim. rewrite Hdr1. done. }
  unfold DA.max, DA.reduce_nonempty, DA.reduce.
  cbn [forallb nodupb mem existsb negb andb orb]. rewrite Hh1, Hh2.
  rewrite Hl1, Hl2. apply Nat.eqb_neq in Hn1, Hn2. rewrite Hn1, Hn2.
  cbn [andb orb negb String.eqb Ascii.eqb Bool.eqb mbind result_bind fmap
       result_fmap].
  eexists. split; [done|]. unfold DA.persist. cbn [axes].
  split_and!.
  - unfold dims at 1. cbn [axes]. rewrite dims_drop_axes.
    fold (dims r1). by rewrite Hdr1.
  - rewrite coord_drop_axes by done. unfold r1. cbn [axes].
    rewrite coord_set_axis; [|by rewrite <- Hd2 in Htime|done].
    unfold RS.bin_labels. cbn [rs_freq rs_first rs_bins period].
    rewrite year_labels, Z2Nat.id; [done|].
    pose proof (sorted_last_year d0 dates Hsorted). lia.
  - intros x Hx. rewrite !not_elem_of_cons in Hx.
    destruct Hx as (Hx1 & Hx2 & Hx3 & _). rewrite coord_drop_axes.
    + unfold r1. cbn [axes]. rewrite coord_set_axis_ne by done.
      unfold p2, p1. by rewrite !coord_take_positions_ne.
    + apply mem_false. rewrite !not_elem_of_cons.
      split_and!; [done..|apply not_elem_of_nil].
Qed.
End Austin.

(** ** Quarters and seasons, by the calendar *)

Lemma period_QS (d : Date) :
  (0 <= month d)%Z →
  period QS_Mar d = ((12 * year d + month d - 3) / 3)%Z.
Proof.
  intros Hm. unfold period. destruct (Z.ltb_spec (month d) 3);
    Z.div_mod_to_equations; lia.
Qed.

Lemma period_QS_quarter (d : Date) (q : Z) :
  (0 <= month d)%Z →
  (period QS_Mar d =? q)%Z
  = ((12 * (q / 4) + (3 + 3 * (q mod 4)) <=? 12 * year d + month d)
     && (12 * year d + month d <? 12 * (q / 4) + (3 + 3 * (q mod 4)) + 3))%Z.
Proof.
  intros Hm. rewrite period_QS by done. apply eq_iff_eq_true.
  rewrite andb_true_iff, Z.eqb_eq, Z.leb_le, Z.ltb_lt.
  split; intros; Z.div_mod_to_equations; lia.
Qed.

Lemma quarter_label_start (p : Z) (k : nat) :
  let t := (12 * (p / 4) + (3 + 3 * (p mod 4)) - 1 + 3 * Z.of_nat k)%Z in
  mkDate (t / 12) (t mod 12 + 1) 1 = period_start QS_Mar (p + Z.of_nat k).
Proof.
  cbn. f_equal; Z.div_mod_to_equations; lia.
Qed.

Lemma date_leb_months (a b : Date) :
  (1 <= month a <= 12)%Z → (1 <= month b <= 12)%Z →
  date_leb a b = true →
  (12 * year a + month a <= 12 * year b + month b)%Z.
Proof.
  intros Ha Hb. unfold date_leb.
  intros [H|[H1 [H|[H _]%andb_true_iff]%orb_true_iff]%andb_true_iff]%orb_true_iff;
    lia.
Qed.

Lemma sorted_months (d0 : Date) (dates : list Date) :
  Forall (λ d, (1 <= month d <= 12)%Z) (d0 :: dates) →
  sortedb date_leb (d0 :: dates) = true →
  Forall (λ d, (12 * year d0 + month d0 <= 12 * year d + month d)%Z) dates.
Proof.
  revert d0. induction dates as [|d1 dates IH]; intros d0 Hv Hs; [constructor|].
  cbn [sortedb] in Hs. apply andb_true_iff in Hs as [H1 H2].
  apply Forall_cons in Hv as [Hv0 Hv].
  pose proof Hv as [Hv1 _]%Forall_cons.
  apply date_leb_months in H1; [|done..]. constructor; [done|].
  eapply Forall_impl; [by apply IH|]. cbn. intros d. lia.
Qed.

Lemma sorted_last_months (d0 : Date) (dates : list Date) :
  Forall (λ d, (1 <= month d <= 12)%Z) (d0 :: dates) →
  sortedb date_leb (d0 :: dates) = true →
  (12 * year d0 + month d0
   <= 12 * year (List.last dates d0) + month (List.last dates d0))%Z.
Proof.
  intros Hv Hs. pose proof (sorted_months _ _ Hv Hs) as H.
  destruct dates as [|d1 dates]; [cbn; lia|].
  rewrite Forall_forall in H. by apply H, last_elem.
Qed.

Lemma mapM_as_date_elem (labs : list Label) (dates : list Date) (d : Date) :
  mapM as_date labs = Some dates → d ∈ dates → LDate d ∈ labs.
Proof.
  intros H%mapM_Some. induction H as [|l x labs dates Hl _ IH].
  - by intros ?%elem_of_nil.
  - intros [->|Hd]%elem_of_cons; [|right; by apply IH].
    destruct l; simplify_eq/=. left.
Qed.

Lemma season_of_start (p : Z) (t : string) (m : Z) :
  (t, m) ∈ [("DJF", 12); ("JJA", 6); ("MAM", 3); ("SON", 9)]%Z →
  String.eqb (season_of (period_start QS_Mar p)) t
  = (month (period_start QS_Mar p) =? m)%Z.
Proof.
  intros Ht. cbn [period_start month]. unfold season_of. cbn [month].
  pose proof (Z.mod_pos_bound p 4 eq_refl) as Hr.
  generalize dependent (p mod 4)%Z. intros r Hr.
  assert (r = 0 ∨ r = 1 ∨ r = 2 ∨ r = 3)%Z
    as [ -> | [ -> | [ -> | -> ] ] ] by lia;
    repeat (apply elem_of_cons in Ht as [[= -> ->]|Ht]; [reflexivity|]);
    by apply elem_of_nil in Ht.
Qed.

Lemma mem_season (labels : list Label) (qs : list Date) (t : string) (m : Z) :
  (t, m) ∈ [("DJF", 12); ("JJA", 6); ("MAM", 3); ("SON", 9)]%Z →
  mapM as_date labels = Some qs →
  Forall (λ lab, ∃ p, lab = LDate (period_start QS_Mar p)) labels →
  mem t (map season_of qs)
  = existsb (λ lab, match lab with
                    | LDate q => (month q =? m)%Z
                    | _ => false
                    end) labels.
Proof.
  intros Ht H%mapM_Some. induction H as [|l q labels qs Hl _ IH]; [done|].
  intros [(p & ->) Hf]%Forall_cons. cbn in Hl. injection Hl as <-.
  cbn [map existsb]. unfold mem in *. cbn [existsb].
  rewrite IH by done.
  rewrite (String.eqb_sym t), <- (season_of_start p t m Ht). reflexivity.
Qed.

Lemma groupby_inv (d : string) (a : DataArray Value) (gb : GroupBy) :
  GB.groupby_season d a = Ok gb →
  ∃ dates, mapM as_date (coord d (axes a)) = Some dates
           ∧ gb_keys gb = map season_of dates.
Proof.
  unfold GB.groupby_season. destruct (has_dim d a); [|done].
  destruct (mapM as_date _) as [[|d0 dates]|]; [done| |done].
  intros [= <-]. by eexists.
Qed.

(** C9.  On a time index of calendar dates, the seasonal snowfall is
    computed as follows.  The precipitation is kept where the mean
    temperature is strictly below 0 and is missing elsewhere (not zero).
    It is summed, missing cells skipped, over quarters of three calendar
    months that begin on the first of March, June, September and
    December: the quarters run, without a gap, from the one that holds
    the first date to the one that holds the last date, the total of a
    quarter is taken over exactly the dates from its first day up to the
    first day of the next quarter, and a quarter that holds no date is
    missing.  Only the first four ensemble members are kept.  The quarter
    totals are averaged per calendar season: DJF is the mean of the
    quarters that begin in December, MAM in March, JJA in June and SON in
    September, missing totals skipped, and the seasons found are in
    alphabetical order before they are put in display order. *)
Theorem C9_seasonal_snow (ds : Dataset) (pcp t_mean r : DataArray Value) :
  let w := DA.where_ pcp (DA.lt t_mean 0) in
  let months (d : Date) : Z := (12 * year d + month d)%Z in
  let in_quarter (y m : Z) (d : Date) : bool :=
    ((12 * y + m <=? months d) && (months d <? 12 * y + m + 3))%Z in
  let quarter_label (y m : Z) (k : nat) : Label :=
    let t := (12 * y + m - 1 + 3 * Z.of_nat k)%Z in
    LDate (mkDate (t / 12) (t mod 12 + 1) 1) in
  let first_month : list (string * Z) :=
    [("DJF", 12); ("JJA", 6); ("MAM", 3); ("SON", 9)]%Z in
  let total (l : list Value) : Q := foldr Qplus 0%Q (omap id l) in
  let average (l : list Value) : Value :=
    match omap id l with
    | [] => None
    | x :: xs =>
        Some (foldr Qplus 0 (x :: xs)
              / inject_Z (Z.of_nat (length (x :: xs))))%Q
    end in
  DS.getitem "pcp" ds = Ok pcp →
  DS.getitem "t_mean" ds = Ok t_mean →
  (∀ d, LDate d ∈ coord "time" (axes w) → (1 <= month d <= 12)%Z) →
  seasonal_snow ds = Ok r →
  ∃ (snow first4 s : DataArray Value) (d0 : Date) (dates : list Date)
    (y0 m0 : Z) (n : nat),
    (∀ e, match values t_mean e with
          | Some t => ((t < 0)%Q → values w e = values pcp e)
                      ∧ ((0 <= t)%Q → values w e = None)
          | None => values w e = None
          end)
    ∧ da_snow ds = Ok snow
    ∧ mapM as_date (coord "time" (axes w)) = Some (d0 :: dates)
    ∧ m0 ∈ [3; 6; 9; 12]%Z
    ∧ (12 * y0 + m0 <= months d0 < 12 * y0 + m0 + 3)%Z
    ∧ (12 * y0 + m0 + 3 * (Z.of_nat n - 1) <= months (List.last dates d0)
       < 12 * y0 + m0 + 3 * Z.of_nat n)%Z
    ∧ coord "time" (axes snow) = map (quarter_label y0 m0) (seq 0 n)
    ∧ (∀ e y m,
         coord "time" (axes snow) !! (e !!! "time")
         = Some (LDate (mkDate y m 1)) →
         values snow e =
           match List.filter
                   (λ i, match (d0 :: dates) !! i with
                         | Some d => in_quarter y m d
                         | None => false
                         end)
                   (seq 0 (length (d0 :: dates))) with
           | [] => None
           | ps => Some (total (map (λ i, values w (upd "time" i e)) ps))
           end)
    ∧ DA.isel_slice "ensemble" 0 4 snow = Ok first4
    ∧ coord "ensemble" (axes first4) = take 4 (coord "ensemble" (axes snow))
    ∧ coord "time" (axes first4) = coord "time" (axes snow)
    ∧ (∀ e, e !!! "ensemble" < length (coord "ensemble" (axes first4)) →
         values first4 e = values snow (upd "ensemble" (e !!! "ensemble") e))
    ∧ seasonal_snow_0 ds = Ok s
    ∧ coord "season" (axes s)
      = map (λ tm : string * Z, LStr tm.1)
          (List.filter
             (λ tm : string * Z,
                existsb (λ lab, match lab with
                                | LDate q => (month q =? tm.2)%Z
                                | _ => false
                                end)
                        (coord "time" (axes first4)))
             first_month)
    ∧ (∀ e t m,
         coord "season" (axes s) !! (e !!! "season") = Some (LStr t) →
         (t, m) ∈ first_month →
         values s e =
           average
             (map (λ b, values first4 (upd "time" b e))
                (List.filter
                   (λ b, match coord "time" (axes first4) !! b with
                         | Some (LDate q) => (month q =? m)%Z
                         | _ => false
                         end)
                   (seq 0 (axis_len "time" (axes first4))))))
    ∧ coord "season" (axes r) = season_order
    ∧ coord "ensemble" (axes r) = coord "ensemble" (axes first4)
    ∧ (∀ e lab, season_order !! (e !!! "season") = Some lab →
         ∃ p, coord "season" (axes s) !! p = Some lab
           ∧ values r e = values s (upd "season" p e)).
Proof.
  intros w months in_quarter quarter_label first_month total average
    Hp Ht Hvalid Hr.
  assert (∀ l l', l ∈ season_order → label_eqb l l' = true → l' = l) as Hstr.
  { intros l l' Hl. unfold season_order in Hl.
    repeat (apply elem_of_cons in Hl as [->|Hl]; [apply label_eqb_str|]).
    by apply elem_of_nil in Hl. }
  unfold seasonal_snow in Hr.
  destruct (seasonal_snow_0 ds) as [s|] eqn:Hs; [|done].
  cbn [mbind result_bind] in Hr.
  unfold seasonal_snow_0 in Hs.
  destruct (da_snow ds) as [snow|] eqn:Hsnow; [|done].
  cbn [mbind result_bind] in Hs.
  destruct (DA.isel_slice "ensemble" 0 4 snow) as [first4|] eqn:H4; [|done].
  cbn [mbind result_bind] in Hs.
  destruct (GB.groupby_season "time" first4) as [gb|] eqn:Hgb; [|done].
  cbn [mbind result_bind] in Hs.
  destruct (GB.mean "time" gb) as [s'|] eqn:Hmean; [|done].
  cbn [fmap result_fmap] in Hs. injection Hs as <-. unfold DA.persist.
  unfold da_snow in Hsnow. rewrite Hp, Ht in Hsnow.
  cbn [mbind result_bind] in Hsnow. fold w in Hsnow.
  destruct (RS.resample "time" QS_Mar w) as [rs|] eqn:Hrs; [|done].
  cbn [mbind result_bind] in Hsnow.
  apply resample_inv in Hrs as (Htime & d0 & dates & Hdates & Hsorted & ->).
  apply rs_reduce_inv in Hsnow as (_ & Hax & Hval). cbn [rs_obj] in Hax, Hval.
  pose proof H4 as H4'.
  apply (isel_slice_first "ensemble" 4) in H4' as (He & Hc4 & Hd4 & Ho4 & Hv4).
  destruct (gb_mean_inv _ _ _ _ Hgb Hmean) as (_ & _ & Haxs & Hcs & Hvs).
  apply groupby_inv in Hgb as (qs & Hqs & Hkeys).
  apply sel_list_spec in Hr as (Hcr & _ & Hor & Hvr); [|done].
  (* the time index holds calendar dates *)
  assert (Forall (λ d, (1 <= month d <= 12)%Z) (d0 :: dates)) as Hv.
  { apply Forall_forall. intros d Hd. apply Hvalid.
    by eapply mapM_as_date_elem. }
  pose proof (sorted_last_months _ _ Hv Hsorted) as Hlast.
  pose proof Hv as [Hv0 _]%Forall_cons.
  assert (1 <= month (List.last dates d0) <= 12)%Z as Hvl.
  { destruct dates as [|d1 dates]; [done|].
    rewrite Forall_forall in Hv. apply Hv. right. by apply last_elem. }
  set (p0 := period QS_Mar d0) in *.
  set (p1 := period QS_Mar (List.last dates d0)) in *.
  assert (p0 = (months d0 - 3) / 3)%Z as Hp0 by (apply period_QS; lia).
  assert (p1 = (months (List.last dates d0) - 3) / 3)%Z as Hp1
    by (apply period_QS; lia).
  (* the labels of the quarters *)
  assert (coord "time" (axes snow)
          = map (λ k, LDate (period_start QS_Mar (p0 + Z.of_nat k)))
              (seq 0 (Z.to_nat (p1 - p0 + 1)))) as Hlabels.
  { rewrite Hax, coord_set_axis; [done|by apply mem_true|done]. }
  assert (coord "time" (axes first4) = coord "time" (axes snow)) as Ht4
    by (by apply Ho4).
  exists snow, first4, s', d0, dates, (p0 / 4)%Z, (3 + 3 * (p0 mod 4))%Z,
    (Z.to_nat (p1 - p0 + 1)).
  split_and!; try done.
  - intros e. unfold w, DA.where_, DA.binop, DA.lt. cbn [values].
    destruct (values t_mean e) as [t|]; [|done]. split; intros Hq.
    + apply Qltb_true in Hq. by rewrite Hq.
    + apply Qltb_false in Hq. by rewrite Hq.
  - pose proof (Z.mod_pos_bound p0 4 eq_refl) as Hm.
    assert (p0 mod 4 = 0 ∨ p0 mod 4 = 1 ∨ p0 mod 4 = 2 ∨ p0 mod 4 = 3)%Z
      as [ -> | [ -> | [ -> | -> ] ] ] by lia; cbn; repeat constructor.
  - unfold months in *. Z.div_mod_to_equations. lia.
  - unfold months in *. Z.div_mod_to_equations. lia.
  - unfold months in *. Z.div_mod_to_equations. lia.
  - unfold months in *. Z.div_mod_to_equations. lia.
  - rewrite Hlabels. apply map_ext. intros k. unfold quarter_label.
    f_equal. symmetry. apply quarter_label_start.
  - intros e y m Hlab. rewrite Hval, bin_positions_times. fold p0.
    rewrite Hlabels in Hlab.
    change (map ?f ?l) with (f <$> l) in Hlab.
    rewrite list_lookup_fmap in Hlab.
    destruct (seq 0 _ !! _) as [k|] eqn:Hk; [|done].
    apply lookup_seq in Hk as [Hk _]. cbn [Nat.add] in Hk. subst k.
    cbn in Hlab.
    injection Hlab as <- <-.
    unfold times_in.
    assert (∀ i, match (d0 :: dates) !! i with
                 | Some d => (period QS_Mar d =? p0 + Z.of_nat (e !!! "time"))%Z
                 | None => false
                 end
                 = match (d0 :: dates) !! i with
                   | Some d =>
                       in_quarter ((p0 + Z.of_nat (e !!! "time")) / 4)%Z
                         (3 + 3 * ((p0 + Z.of_nat (e !!! "time")) mod 4))%Z d
                   | None => false
                   end) as Hext.
    { intros i. destruct ((d0 :: dates) !! i) as [d|] eqn:Hd; [|done].
      apply list_elem_of_lookup_2 in Hd. rewrite Forall_forall in Hv.
      apply period_QS_quarter. specialize (Hv d Hd). cbn in Hv. lia. }
    rewrite (filter_ext _ _ Hext).
    by destruct (List.filter _ _).
  - rewrite Hcs. unfold GB.group_labels, unique_seasons, sorted_seasons.
    rewrite Hkeys.
    assert (Forall (λ lab, ∃ p, lab = LDate (period_start QS_Mar p))
              (coord "time" (axes first4))) as Hq.
    { rewrite Ht4, Hlabels. apply Forall_forall.
      intros lab (k & <- & _)%list_elem_of_In%in_map_iff. by eexists. }
    assert (∀ t m, (t, m) ∈ first_month →
              mem t (map season_of qs)
              = existsb (λ lab, match lab with
                                | LDate q => (month q =? m)%Z
                                | _ => false
                                end) (coord "time" (axes first4))) as Hmem.
    { intros t m Htm. by apply mem_season. }
    unfold first_month in *. cbn [List.filter snd].
    rewrite <- (Hmem "DJF" 12%Z), <- (Hmem "JJA" 6%Z), <- (Hmem "MAM" 3%Z),
      <- (Hmem "SON" 9%Z) by (repeat constructor).
    by destruct (mem "DJF" _), (mem "JJA" _), (mem "MAM" _), (mem "SON" _).
  - intros e t m Hlab Htm. rewrite Hvs, Hlab. unfold nanmean, average, present.
    assert (∀ b, b ∈ seq 0 (axis_len "time" (axes first4)) →
              match coord "time" (axes first4) !! b with
              | Some (LDate dt) => String.eqb (season_of dt) t
              | _ => false
              end
              = match coord "time" (axes first4) !! b with
                | Some (LDate q) => (month q =? m)%Z
                | _ => false
                end) as Hext.
    { intros b _. destruct (coord "time" (axes first4) !! b) as [lab|] eqn:Hb;
        [|done].
      rewrite Ht4, Hlabels in Hb. apply list_elem_of_lookup_2 in Hb.
      apply list_elem_of_In, in_map_iff in Hb as (k & <- & _).
      by apply season_of_start. }
    rewrite (filter_ext_in _ _ _
               (λ b Hb, Hext b (proj2 (list_elem_of_In _ _) Hb))).
    by destruct (omap id _).
  - unfold DA.persist in Hor. rewrite Hor, Haxs by done.
    by apply coord_set_axis_ne.
Qed.

(** ** Running a statement *)

Lemma assoc_cons {A} (x y : string) (o : A) (l : list (string * A)) :
  assoc x ((y, o) :: l) = if String.eqb y x then Some o else assoc x l.
Proof. done. Qed.

Lemma run_bind {A B} (m : M A) (f : A → M B) (s : Session) :
  (m ≫= f) s = match m s with
               | (s', Ok a) => f a s'
               | (s', Raise e) => (s', Raise e)
               end.
Proof. done. Qed.

Lemma run_ret {A} (a : A) (s : Session) : (mret a : M A) s = (s, Ok a).
Proof. done. Qed.

Lemma run_lift {A} (r : result A) (s : Session) : lift r s = (s, r).
Proof. done. Qed.

Lemma run_get x s :
  get x s = (s, match assoc x (names s) with
                | Some o => Ok o
                | None => Raise NameError
                end).
Proof. done. Qed.

Lemma run_set x o s : set x o s = (mkSession (store s) ((x, o) :: names s), Ok tt).
Proof. done. Qed.

Lemma run_fresh kv s :
  fresh kv s = (mkSession (store s ++ [kv]) (names s), Ok (length (store s))).
Proof. done. Qed.

Lemma run_attrs_of ar s : attrs_of ar s = (s, Ok (default [] (store s !! ar))).
Proof. done. Qed.

Lemma run_update ar f s :
  update ar f s = (mkSession (alter f ar (store s)) (names s), Ok tt).
Proof. done. Qed.

Lemma run_copy_attrs v s :
  ∃ l v', copy_attrs v s = (mkSession (store s ++ l) (names s), Ok v').
Proof.
  revert s. induction v as [|[x ar] v IH]; intros [st ns]; cbn [copy_attrs].
  - exists [], []. rewrite run_ret. cbn. by rewrite app_nil_r.
  - rewrite run_bind, run_attrs_of. cbn [store names].
    rewrite run_bind, run_fresh. cbn [store names]. rewrite run_bind.
    destruct (IH (mkSession (st ++ [default [] (st !! ar)]) ns))
      as (l & v' & ->).
    cbn [store names]. rewrite run_ret. eexists (_ :: l), _.
    by rewrite <- app_assoc.
Qed.

Ltac step Hds :=
  first
    [ rewrite run_bind
    | match goal with
      | |- context [copy_attrs ?v ?s] =>
          destruct (run_copy_attrs v s) as (? & ? & ->)
      end
    | rewrite run_ret
    | rewrite run_lift
    | rewrite run_get
    | rewrite run_set
    | rewrite run_fresh
    | rewrite run_attrs_of
    | rewrite run_update
    | progress unfold get_dataset, get_array, getitem, keeping, dropping,
        set_array, set_attr, plot, title, dataset_sel
    | progress cbn [fst snd names store assoc String.eqb Ascii.eqb Bool.eqb]
    | rewrite Hds
    | match goal with
      | |- context [match ?r with Ok _ => _ | Raise _ => _ end] =>
          destruct r eqn:?
      | |- context [if ?b then _ else _] => destruct b eqn:?
      | |- context [match ?o with Some _ => _ | None => _ end] =>
          destruct o eqn:?
      end ].

Section Frame.
Variable sqrtQ : Q → Q.
Variable ds0 : Dataset.
Variable va : list (string * nat).
Variable store0 : list Attrs.

Lemma InvS_length st : InvS store0 st → length store0 ≤ length st.
Proof.
  unfold InvS. intros H. apply (f_equal length) in H.
  rewrite length_take in H. lia.
Qed.

Lemma InvS_app st l : InvS store0 st → InvS store0 (st ++ l).
Proof.
  intros H. unfold InvS. rewrite take_app_le; [done|]. by apply InvS_length.
Qed.

Lemma InvS_alter st f ar : InvS store0 st → length store0 ≤ ar → InvS store0 (alter f ar st).
Proof. intros H Har. unfold InvS. by rewrite take_alter_ge. Qed.

Lemma InvN_cons x o ns : good sqrtQ ds0 store0 x o → InvN sqrtQ ds0 va store0 ns → InvN sqrtQ ds0 va store0 ((x, o) :: ns).
Proof.
  intros Hg [Hd Hn]. pose proof Hg as [Hx _]. split; cbn.
  - apply String.eqb_neq in Hx. by rewrite Hx.
  - intros y o' Hy. destruct (String.eqb_spec x y) as [->|Hne].
    + by intros [= <-].
    + by apply Hn.
Qed.

Lemma InvN_shadow x o o' ns : InvN sqrtQ ds0 va store0 ((x, o) :: ns) → InvN sqrtQ ds0 va store0 ((x, o) :: (x, o') :: ns).
Proof.
  intros [Hd Hn]. split; cbn in *.
  - by destruct (String.eqb x "ds").
  - intros y o1 Hy. specialize (Hn y o1 Hy). by destruct (String.eqb x y).
Qed.

Ltac denote :=
  unfold denotes, cell_of;
  cbn [assoc String.eqb Ascii.eqb Bool.eqb];
  unfold elevation, elevation_0, temp_std_errors, temp_errors,
    temp_ens_mean, temp, spread, spread_0, temp_mean, seasonal_snow,
    seasonal_snow_0, da_snow, pcp_ann_max_ts, pcp_ann_max, ds_tx;
  repeat first
    [ match goal with
      | H : ?l = Ok _ |- context [?l] => rewrite H
      | H : ?l = Raise _ |- context [?l] => rewrite H
      | H : ?l = true |- context [?l] => rewrite H
      | H : ?l = false |- context [?l] => rewrite H
      end
    | progress cbn [mbind result_bind fmap result_fmap] ];
  done.

Ltac address HS :=
  rewrite ?length_app; cbn [length]; pose proof (InvS_length _ HS); lia.

Ltac close Hn HS :=
  simplify_eq;
  (split;
  [ cbn [names store]; repeat first
      [ apply InvN_shadow
      | apply InvN_cons;
        [ split; [done|]; first [ split; [address HS|denote] | done | denote ] | ] ];
    by split
  | cbn [names store];
    repeat first [ apply InvS_app | apply InvS_alter; [|address HS] ];
    exact HS ]).

Lemma analysis_elevation_Inv s : Inv sqrtQ ds0 va store0 s → Inv sqrtQ ds0 va store0 (analysis_elevation s).1.
Proof.
  destruct s as [st ns]. intros [[Hds Hn] HS]. cbn [names store] in *.
  unfold analysis_elevation.
  repeat step Hds; close Hn HS.
Qed.

Lemma analysis_uncertainty_Inv s : Inv sqrtQ ds0 va store0 s → Inv sqrtQ ds0 va store0 (analysis_uncertainty sqrtQ s).1.
Proof.
  destruct s as [st ns]. intros [[Hds Hn] HS]. cbn [names store] in *.
  unfold analysis_uncertainty.
  repeat step Hds; close Hn HS.
Qed.

Lemma analysis_spread_Inv s : Inv sqrtQ ds0 va store0 s → Inv sqrtQ ds0 va store0 (analysis_spread s).1.
Proof.
  destruct s as [st ns]. intros [[Hds Hn] HS]. cbn [names store] in *.
  unfold analysis_spread.
  repeat step Hds; close Hn HS.
Qed.

Lemma analysis_snow_Inv s : Inv sqrtQ ds0 va store0 s → Inv sqrtQ ds0 va store0 (analysis_snow s).1.
Proof.
  destruct s as [st ns]. intros [[Hds Hn] HS]. cbn [names store] in *.
  unfold analysis_snow.
  repeat step Hds; close Hn HS.
Qed.
Lemma analysis_austin_Inv s : Inv sqrtQ ds0 va store0 s → Inv sqrtQ ds0 va store0 (analysis_austin s).1.
Proof.
  destruct s as [st ns]. intros [[Hds Hn] HS]. cbn [names store] in *.
  unfold analysis_austin.
  repeat step Hds; close Hn HS.
Qed.

Lemma run_analysis_Inv an s : Inv sqrtQ ds0 va store0 s → Inv sqrtQ ds0 va store0 (run_analysis sqrtQ an s).1.
Proof.
  destruct an; cbn [run_analysis];
    auto using analysis_elevation_Inv, analysis_uncertainty_Inv,
      analysis_spread_Inv, analysis_snow_Inv, analysis_austin_Inv.
Qed.

Lemma run_all_Inv order s : Inv sqrtQ ds0 va store0 s → Inv sqrtQ ds0 va store0 (run_all sqrtQ order s).
Proof.
  revert s. induction order as [|an order IH]; intros s Hs; [done|].
  cbn. by apply IH, run_analysis_Inv.
Qed.

Lemma load_Inv : Inv sqrtQ ds0 va store0 (load ds0 va store0).
Proof.
  split; [split|]; unfold load; cbn [names store].
  - done.
  - intros x o Hx. rewrite assoc_cons.
    by destruct (String.eqb_spec "ds" x).
  - unfold InvS. by rewrite take_ge.
Qed.

Lemma denotes_fun x a a' : denotes sqrtQ ds0 x a → denotes sqrtQ ds0 x a' → a = a'.
Proof.
  unfold denotes. destruct (String.eqb x "seasonal_snow").
  - destruct (seasonal_snow ds0); congruence.
  - destruct (cell_of sqrtQ x); [congruence|done].
Qed.
End Frame.


Lemma forallb_negb_false {A} (p : A → bool) (l : list A) :
  forallb (λ x, negb (p x)) l = true → ∀ x, x ∈ l → p x = false.
Proof.
  rewrite forallb_forall. intros H x Hx. apply negb_true_iff, H.
  by apply list_elem_of_In.
Qed.

(** C3, as amended.  A selection by a literal label that no entry of the
    index equals raises [KeyError].  A selection by an inclusive range on
    an increasing numeric index, when no label lies in the range, raises
    nothing: it returns an array with the same dimensions and no entry
    along the selected dimension. *)
Theorem C3_empty_selection {V} (d : string) (a : DataArray V) :
  has_dim d a = true →
  (∀ lab,
     forallb (λ l, negb (label_eqb lab l)) (coord d (axes a)) = true →
     DA.sel d lab a = Raise KeyError)
  ∧ (∀ lo hi,
       forallb is_num (coord d (axes a)) = true →
       sortedb label_leb (coord d (axes a)) = true →
       forallb (λ l, negb (label_leb (LNum lo) l && label_leb l (LNum hi)))
               (coord d (axes a)) = true →
       ∃ r, DA.sel_slice d lo hi a = Ok r
         ∧ coord d (axes r) = [] ∧ dims r = dims a).
Proof.
  intros Hd. split.
  - intros lab Hno. unfold DA.sel. rewrite Hd.
    rewrite positions_nil; [done|]. by apply forallb_negb_false.
  - intros lo hi Hnum Hs Hout. unfold DA.sel_slice. rewrite Hd.
    rewrite slice_positions_empty; [|done..|].
    + cbn. eexists. split; [done|]. split.
      * apply coord_set_axis; [by apply mem_true|done].
      * unfold dims. cbn. apply dims_set_axis_same.
    + intros q Hq [H1 H2].
      pose proof (forallb_negb_false _ _ Hout _ Hq) as Hf. cbn in Hf.
      apply Qle_bool_iff in H1, H2. by rewrite H1, H2 in Hf.
Qed.

Lemma C3_witness :
  DA.sel "time" (LDate (mkDate 2000 1 1)) (Sample.pcp Sample.lons)
    = Raise KeyError
  ∧ ∃ r, DA.sel_slice "lon" (austin_lon - buf) (austin_lon + buf)
           (Sample.pcp Sample.lons_west) = Ok r
      ∧ coord "lon" (axes r) = []
      ∧ dims r = dims (Sample.pcp Sample.lons_west).
Proof.
  split.
  - apply (proj1 (C3_empty_selection "time" (Sample.pcp Sample.lons) eq_refl)).
    reflexivity.
  - apply (proj2 (C3_empty_selection "lon" (Sample.pcp Sample.lons_west)
                    eq_refl)); reflexivity.
Defined.

Lemma C3_counterexample :
  ∃ tx pcp, ds_tx Sample.ds_west = Ok tx
    ∧ DS.getitem "pcp" tx = Ok pcp
    ∧ coord "lon" (axes pcp) = [].
Proof.
  assert (match ds_tx Sample.ds_west with
          | Ok tx =>
              match DS.getitem "pcp" tx with
              | Ok pcp => bool_decide (length (coord "lon" (axes pcp)) = 0)
              | Raise _ => false
              end
          | Raise _ => false
          end = true) as H by (vm_compute; reflexivity).
  destruct (ds_tx Sample.ds_west) as [tx|]; [|discriminate H].
  destruct (DS.getitem "pcp" tx) as [pcp|] eqn:E; [|discriminate H].
  exists tx, pcp. apply bool_decide_eq_true in H.
  split_and!; [done..|]. by destruct (coord "lon" (axes pcp)).
Qed.

(** C1, as amended.  When the precipitation variable has the dimensions
    time, lat and lon, on increasing numeric lat and lon indexes with a
    grid line within 0.25 degrees of Austin and on an increasing,
    non-empty time index, the Austin cells return an array whose
    dimensions are those of the variable without lat and lon (time alone
    only if the variable has no other dimension, time and ensemble for an
    ensemble variable), whose time coordinate holds the first day of every
    calendar year from the year of the first timestamp to the year of the
    last one, each once, and whose other coordinates are unchanged. *)
Theorem C1_annual_max_series (ds : Dataset) (pcp : DataArray Value)
    (d0 : Date) (dates : list Date) :
  DS.getitem "pcp" ds = Ok pcp →
  has_dim "time" pcp = true →
  has_dim "lat" pcp = true →
  has_dim "lon" pcp = true →
  DS.index "lat" ds = Some (coord "lat" (axes pcp)) →
  DS.index "lon" ds = Some (coord "lon" (axes pcp)) →
  forallb is_num (coord "lat" (axes pcp)) = true →
  forallb is_num (coord "lon" (axes pcp)) = true →
  sortedb label_leb (coord "lat" (axes pcp)) = true →
  sortedb label_leb (coord "lon" (axes pcp)) = true →
  in_box austin_lat (coord "lat" (axes pcp)) = true →
  in_box austin_lon (coord "lon" (axes pcp)) = true →
  mapM as_date (coord "time" (axes pcp)) = Some (d0 :: dates) →
  sortedb date_leb (d0 :: dates) = true →
  ∃ r, pcp_ann_max_ts ds = Ok r
    ∧ dims r = List.filter (λ d, negb (mem d ["lat"; "lon"])) (dims pcp)
    ∧ coord "time" (axes r)
      = map (λ y, LDate (mkDate y 1 1))
            (seqZ (year d0) (year (List.last dates d0) - year d0 + 1))
    ∧ ∀ x, x ∉ ["time"; "lat"; "lon"] → coord x (axes r) = coord x (axes pcp).
Proof. apply pcp_ann_max_ts_spec. Qed.

Lemma C1_witness :
  ∃ r, pcp_ann_max_ts Sample.ds = Ok r
    ∧ dims r = List.filter (λ d, negb (mem d ["lat"; "lon"]))
                 (dims (Sample.pcp Sample.lons))
    ∧ coord "time" (axes r)
      = map (λ y, LDate (mkDate y 1 1)) (seqZ 1983 (1986 - 1983 + 1))
    ∧ ∀ x, x ∉ ["time"; "lat"; "lon"] →
        coord x (axes r) = coord x (axes (Sample.pcp Sample.lons)).
Proof.
  apply (C1_annual_max_series Sample.ds (Sample.pcp Sample.lons)
           (mkDate 1983 12 30)
           [mkDate 1984 1 15; mkDate 1984 7 31; mkDate 1984 10 2;
            mkDate 1986 4 1]); reflexivity.
Defined.

Lemma C1_counterexample :
  ∃ r, pcp_ann_max_ts Sample.ds = Ok r ∧ dims r = ["time"; "ensemble"].
Proof.
  assert (match pcp_ann_max_ts Sample.ds with
          | Ok r => bool_decide (dims r = ["time"; "ensemble"])
          | Raise _ => false
          end = true) as H by (vm_compute; reflexivity).
  destruct (pcp_ann_max_ts Sample.ds) as [r|]; [|discriminate H].
  exists r. by apply bool_decide_eq_true in H.
Qed.

Lemma sqrt3_nonneg (x : Q) : (0 <= x)%Q → (0 <= Sample.sqrt3 x)%Q.
Proof.
  intros _. unfold Sample.sqrt3, Qle. cbn. rewrite Z.mul_1_r.
  apply Z.sqrt_nonneg.
Qed.

(** C2, as amended.  For a [t_mean] over (time, lat, lon, ensemble) whose
    time index holds the date 1984-07-31 once, the cells of the
    uncertainty analysis return an array over exactly (lat, lon), with
    the coordinates of [t_mean]; each of its cells is either a
    non-negative number, when some ensemble member is present at that grid
    point on that day, or missing, when every member is missing there. *)
Theorem C2_temp_std_errors (sqrtQ : Q → Q) (ds : Dataset)
    (t_mean : DataArray Value) (i : nat) :
  (∀ x, (0 <= x)%Q → (0 <= sqrtQ x)%Q) →
  DS.getitem "t_mean" ds = Ok t_mean →
  dims t_mean = ["time"; "lat"; "lon"; "ensemble"] →
  positions (label_eqb (LDate (mkDate 1984 7 31)))
            (coord "time" (axes t_mean)) = [i] →
  ∃ r, temp_std_errors sqrtQ ds = Ok r
    ∧ dims r = ["lat"; "lon"]
    ∧ coord "lat" (axes r) = coord "lat" (axes t_mean)
    ∧ coord "lon" (axes r) = coord "lon" (axes t_mean)
    ∧ ∀ e,
        let member k := values t_mean (upd "time" i (upd "ensemble" k e)) in
        let n := axis_len "ensemble" (axes t_mean) in
        match values r e with
        | Some x => (0 <= x)%Q ∧ ∃ k, k < n ∧ member k ≠ None
        | None => ∀ k, k < n → member k = None
        end.
Proof.
  intros Hsqrt Hget Hdims Hpos.
  destruct (temp_std_errors_spec sqrtQ Hsqrt ds t_mean i Hget) as (r & Hr & Hax & Hv).
  - rewrite Hdims. repeat constructor.
  - rewrite Hdims. repeat constructor.
  - done.
  - exists r. split_and!; [done| | | |done].
    + unfold dims. rewrite Hax, !dims_drop_axes. fold (dims t_mean).
      by rewrite Hdims.
    + by rewrite Hax, !coord_drop_axes.
    + by rewrite Hax, !coord_drop_axes.
Qed.

Lemma C2_witness :
  ∃ r, temp_std_errors Sample.sqrt3 Sample.ds = Ok r
    ∧ dims r = ["lat"; "lon"]
    ∧ coord "lat" (axes r) = Sample.lats
    ∧ coord "lon" (axes r) = Sample.lons
    ∧ ∀ e,
        let member k :=
          values (Sample.t_mean Sample.lons)
                 (upd "time" 2 (upd "ensemble" k e)) in
        match values r e with
        | Some x => (0 <= x)%Q ∧ ∃ k, k < 100 ∧ member k ≠ None
        | None => ∀ k, k < 100 → member k = None
        end.
Proof.
  apply (C2_temp_std_errors Sample.sqrt3 Sample.ds (Sample.t_mean Sample.lons) 2
           sqrt3_nonneg); reflexivity.
Defined.

Lemma C2_counterexample :
  ∃ r, temp_std_errors Sample.sqrt3 Sample.ds = Ok r
    ∧ dims r = ["lat"; "lon"]
    ∧ values r {["lat" := 2; "lon" := 0]} = None.
Proof.
  assert (match temp_std_errors Sample.sqrt3 Sample.ds with
          | Ok r =>
              bool_decide (dims r = ["lat"; "lon"])
              && match values r {["lat" := 2; "lon" := 0]} with
                 | None => true
                 | Some _ => false
                 end
          | Raise _ => false
          end = true) as H by (vm_compute; reflexivity).
  destruct (temp_std_errors Sample.sqrt3 Sample.ds) as [r|]; [|discriminate H].
  exists r. apply andb_true_iff in H as [H1 H2].
  apply bool_decide_eq_true in H1.
  split_and!; [done..|]. by destruct (values r _).
Qed.

Lemma C4_witness :
  (∃ r, DA.max ["ensemble"] (Sample.t_mean Sample.lons) = Ok r
     ∧ dims r = ["time"; "lat"; "lon"]
     ∧ coord "lat" (axes r) = Sample.lats)
  ∧ (∃ r, DS.mean ["time"] Sample.ds = Ok r
       ∧ r.*1 = ["pcp"; "t_mean"; "elevation"]
       ∧ ("time" ∉ DS.dims r)
       ∧ ("lat" ∈ DS.dims r)
       ∧ DS.index "lat" r = Some Sample.lats).
Proof.
  destruct (C4_reduction_dims Sample.sqrt3 ["ensemble"]) as [HA _].
  destruct (C4_reduction_dims Sample.sqrt3 ["time"]) as [_ HD].
  split.
  - destruct (HA (Sample.t_mean Sample.lons)) as [Hdims Hok].
    destruct Hok as (_ & _ & Hmax).
    + intros d ->%list_elem_of_singleton. apply mem_true. reflexivity.
    + apply NoDup_singleton.
    + destruct Hmax as [_ Hmax].
      * intros d ->%list_elem_of_singleton. vm_compute. discriminate.
      * destruct (DA.max ["ensemble"] (Sample.t_mean Sample.lons))
          as [r|] eqn:E; [|discriminate Hmax].
        exists r. split; [reflexivity|].
        destruct (Hdims r (or_intror (or_intror (or_intror eq_refl))))
          as (_ & H2 & H3).
        split; [exact H2|]. apply H3.
        intros H%list_elem_of_singleton. discriminate H.
  - destruct (HD Sample.ds) as [Hinv Hok].
    destruct Hok as (Hmean & _).
    + intros d ->%list_elem_of_singleton. apply mem_true.
      vm_compute. reflexivity.
    + intros v Hv. unfold Sample.ds, Sample.make in Hv.
      repeat (apply elem_of_cons in Hv as [->|Hv];
              [apply nodupb_NoDup; reflexivity|]).
      by apply elem_of_nil in Hv.
    + destruct (DS.mean ["time"] Sample.ds) as [r|] eqn:E;
        [|discriminate Hmean].
      exists r. split; [reflexivity|].
      destruct (Hinv r (or_introl eq_refl)) as (H1 & H2 & H3 & _).
      split; [exact H1|]. split; [|split].
      * intros [_ Hn]%H2. apply Hn. left.
      * apply H2. split.
        -- apply mem_true. vm_compute. reflexivity.
        -- intros H%list_elem_of_singleton. discriminate H.
      * rewrite H3; [reflexivity|].
        intros H%list_elem_of_singleton. discriminate H.
Defined.

Lemma C6_witness :
  ∃ r, seasonal_snow Sample.ds = Ok r ∧ coord "season" (axes r) = season_order.
Proof.
  assert (is_ok (seasonal_snow Sample.ds) = true) as H by (vm_compute; reflexivity).
  destruct (seasonal_snow Sample.ds) as [r|] eqn:E; [|discriminate H].
  exists r. split; [reflexivity|].
  exact (proj1 (C6_season_order Sample.ds) r E).
Defined.

Lemma C9_witness :
  ∃ r snow x, seasonal_snow Sample.ds = Ok r
    ∧ da_snow Sample.ds = Ok snow
    ∧ coord "time" (axes snow)
      = map LDate [mkDate 1983 12 1; mkDate 1984 3 1; mkDate 1984 6 1;
                   mkDate 1984 9 1; mkDate 1984 12 1; mkDate 1985 3 1;
                   mkDate 1985 6 1; mkDate 1985 9 1; mkDate 1985 12 1;
                   mkDate 1986 3 1]
    ∧ values snow {["time" := 0; "lat" := 0; "lon" := 0; "ensemble" := 0]}
      = Some x
    ∧ (x == 1 # 2)%Q
    ∧ values snow {["time" := 1; "lat" := 0; "lon" := 0; "ensemble" := 0]}
      = None
    ∧ coord "ensemble" (axes r) = take 4 (coord "ensemble" (axes snow)).
Proof.
  assert (is_ok (seasonal_snow Sample.ds) = true) as H by (vm_compute; reflexivity).
  destruct (seasonal_snow Sample.ds) as [r|] eqn:E; [|discriminate H].
  destruct (C9_seasonal_snow Sample.ds (Sample.pcp Sample.lons)
              (Sample.t_mean Sample.lons) r eq_refl eq_refl)
    as (snow & first4 & s & d0 & dates & y0 & m0 & n & _ & Hs & Hdates & Hm0
        & Hq0 & Hql & Hlab & Hval & _ & H4 & _ & _ & _ & _ & _ & _ & He & _).
  - intros d Hd.
    change (LDate d ∈ Sample.times) in Hd. unfold Sample.times in Hd.
    cbn [map] in Hd.
    repeat (apply elem_of_cons in Hd as [[= ->]|Hd]; [cbn; lia|]).
    by apply elem_of_nil in Hd.
  - exact E.
  - vm_compute in Hdates. injection Hdates as <- <-.
    cbn [year month List.last] in Hq0, Hql.
    assert (y0 = 1983 ∧ m0 = 12)%Z as [-> ->].
    { repeat (apply elem_of_cons in Hm0 as [->|Hm0]; [lia|]).
      by apply elem_of_nil in Hm0. }
    assert (n = 10) as -> by lia.
    assert (coord "time" (axes snow)
            = map LDate [mkDate 1983 12 1; mkDate 1984 3 1; mkDate 1984 6 1;
                         mkDate 1984 9 1; mkDate 1984 12 1; mkDate 1985 3 1;
                         mkDate 1985 6 1; mkDate 1985 9 1; mkDate 1985 12 1;
                         mkDate 1986 3 1]) as Hlabels
      by (rewrite Hlab; reflexivity).
    pose proof (Hval {["time" := 0; "lat" := 0; "lon" := 0; "ensemble" := 0]}
                  1983%Z 12%Z) as Hx.
    pose proof (Hval {["time" := 1; "lat" := 0; "lon" := 0; "ensemble" := 0]}
                  1984%Z 3%Z) as Hy.
    rewrite Hlabels in Hx, Hy.
    specialize (Hx eq_refl). specialize (Hy eq_refl).
    match type of Hx with
    | _ = ?rhs =>
        assert (match rhs with
                | Some x => Qeq_bool x (1 # 2)
                | None => false
                end = true) as Hc by (vm_compute; reflexivity);
        destruct rhs as [x|]; [|discriminate Hc]
    end.
    match type of Hy with
    | _ = ?rhs => assert (rhs = None) as Hn by (vm_compute; reflexivity)
    end.
    exists r, snow, x. split; [reflexivity|]. split; [exact Hs|].
    split; [exact Hlabels|]. split; [exact Hx|].
    split; [by apply Qeq_bool_iff|]. split; [by rewrite Hy|].
    rewrite He. exact H4.
Defined.

Lemma C10_witness :
  ∃ r, elevation Sample.ds = Ok r
    ∧ axes r = [("lat", Sample.lats); ("lon", Sample.lons)]
    ∧ values r {["lat" := 0; "lon" := 0]} = None
    ∧ values r {["lat" := 1; "lon" := 0]} = Some (inject_Z 100).
Proof.
  destruct (C10_elevation_member0_masked Sample.ds (Sample.elev Sample.lons)
              eq_refl) as (r & Hr & Hax & Hv).
  - intros _. discriminate.
  - exists r. split; [exact Hr|]. split; [exact Hax|]. split.
    + pose proof (Hv {["lat" := 0; "lon" := 0]}) as H.
      assert ((if mem "ensemble" (dims (Sample.elev Sample.lons))
               then values (Sample.elev Sample.lons)
                      (upd "ensemble" 0 {["lat" := 0; "lon" := 0]})
               else values (Sample.elev Sample.lons) {["lat" := 0; "lon" := 0]})
              = Some (inject_Z 0)) as Hs by (vm_compute; reflexivity).
      rewrite Hs in H. apply H. discriminate.
    + pose proof (Hv {["lat" := 1; "lon" := 0]}) as H.
      assert ((if mem "ensemble" (dims (Sample.elev Sample.lons))
               then values (Sample.elev Sample.lons)
                      (upd "ensemble" 0 {["lat" := 1; "lon" := 0]})
               else values (Sample.elev Sample.lons) {["lat" := 1; "lon" := 0]})
              = Some (inject_Z 100)) as Hs by (vm_compute; reflexivity).
      rewrite Hs in H. apply H. reflexivity.
Defined.

(** ** The intra-ensemble range *)

Lemma foldr_Qmax_ge (x : Q) (l : list Q) : (x <= foldr Qmax x l)%Q.
Proof.
  induction l as [|y l IH]; cbn; [apply Qle_refl|].
  eapply Qle_trans; [exact IH|]. apply Q.le_max_r.
Qed.

Lemma foldr_Qmin_le (x : Q) (l : list Q) : (foldr Qmin x l <= x)%Q.
Proof.
  induction l as [|y l IH]; cbn; [apply Qle_refl|].
  eapply Qle_trans; [|exact IH]. apply Q.le_min_r.
Qed.

Lemma nanmean_None (l : list Value) : nanmean l = None ↔ ∀ v, v ∈ l → v = None.
Proof.
  rewrite <- present_nil. unfold nanmean. by destruct (present l).
Qed.

(** The ensemble spread of the time-mean temperature (maximum minus
    minimum over the members) is defined over the dimensions of [t_mean]
    other than time and ensemble, and each of its cells is either
    non-negative or missing; it is missing only where every member is
    missing at every time. *)
Theorem spread_nonneg (ds : Dataset) (t_mean : DataArray Value) :
  DS.getitem "t_mean" ds = Ok t_mean →
  has_dim "time" t_mean = true →
  has_dim "ensemble" t_mean = true →
  axis_len "ensemble" (axes t_mean) ≠ 0 →
  ∃ r, spread ds = Ok r
    ∧ axes r = drop_axes ["ensemble"] (drop_axes ["time"] (axes t_mean))
    ∧ ∀ e, match values r e with
           | Some x => (0 <= x)%Q
           | None =>
               ∀ k t, k < axis_len "ensemble" (axes t_mean) →
                      t < axis_len "time" (axes t_mean) →
                      values t_mean (upd "time" t (upd "ensemble" k e)) = None
           end.
Proof.
  intros Hget Ht He Hn.
  unfold spread, spread_0, temp_mean. rewrite Hget. cbn [mbind result_bind].
  unfold DA.mean, DA.reduce. cbn [forallb nodupb mem existsb negb andb].
  rewrite Ht. cbn [andb mbind result_bind].
  set (tm := mkDA _ _).
  assert (has_dim "ensemble" tm = true) as Hetm.
  { unfold tm. destruct t_mean as [ax f].
    rewrite (has_dim_drop_axes _ _ _ _ f). apply andb_true_iff.
    split; [exact He|done]. }
  assert (axis_len "ensemble" (axes tm) = axis_len "ensemble" (axes t_mean))
    as Hlen.
  { unfold tm, axis_len. cbn [axes]. by rewrite coord_drop_axes. }
  unfold DA.max, DA.min, DA.reduce_nonempty, DA.reduce.
  cbn [forallb nodupb mem existsb negb andb orb]. rewrite Hetm, Hlen.
  apply Nat.eqb_neq in Hn as Hn'. rewrite Hn'.
  cbn [andb orb mbind result_bind fmap result_fmap].
  eexists. split; [done|]. unfold DA.persist, DA.sub, DA.binop.
  cbn [axes values]. split.
  { unfold dims. cbn [axes]. rewrite drop_axes_self. apply app_nil_r. }
  intros e. rewrite !gather_one, Hlen.
  set (L := map _ (seq 0 _)). unfold nanmax, nanmin.
  destruct (present L) as [|x l] eqn:Hp.
  - intros k t Hk Htt. rewrite present_nil in Hp.
    assert (values tm (upd "ensemble" k e) = None) as Hm.
    { apply Hp. apply list_elem_of_In, in_map_iff. exists k.
      split; [done|]. apply in_seq. lia. }
    unfold tm in Hm. cbn [values] in Hm. rewrite gather_one in Hm.
    apply nanmean_None with (v := values t_mean (upd "time" t (upd "ensemble" k e)))
      in Hm; [done|].
    apply list_elem_of_In, in_map_iff. exists t. split; [done|].
    apply in_seq. lia.
  - pose proof (foldr_Qmax_ge x l). pose proof (foldr_Qmin_le x l). lra.
Qed.

Lemma spread_witness :
  ∃ r, spread Sample.ds = Ok r
    ∧ axes r = [("lat", Sample.lats); ("lon", Sample.lons)].
Proof.
  destruct (spread_nonneg Sample.ds (Sample.t_mean Sample.lons) eq_refl eq_refl
              eq_refl) as (r & Hr & Hax & _).
  - discriminate.
  - exists r. split; [exact Hr|exact Hax].
Defined.

(** ** The errors of the members about the ensemble mean *)

Lemma Qsum_sub (c : Q) (l : list Q) :
  (Qsum (map (λ p, p - c) l) == Qsum l - inject_Z (Z.of_nat (length l)) * c)%Q.
Proof.
  induction l as [|x l IH].
  - cbn. ring.
  - cbn [map Qsum foldr length]. fold (Qsum (map (λ p, (p - c)%Q) l)).
    fold (Qsum l). rewrite IH, Nat2Z.inj_succ, <- Z.add_1_r, inject_Z_plus.
    ring.
Qed.

Lemma Qmean_centered (l : list Q) :
  l ≠ [] → (Qmean (map (λ p, p - Qmean l) l) == 0)%Q.
Proof.
  intros Hl. unfold Qmean at 1. rewrite Qsum_sub, length_map. unfold Qmean.
  assert (¬ (inject_Z (Z.of_nat (length l)) == 0)%Q) as Hn.
  { change 0%Q with (inject_Z 0). rewrite inject_Z_injective.
    destruct l; [done|]. cbn [length]. lia. }
  field. exact Hn.
Qed.

Lemma present_sub (m : Q) (l : list Value) :
  present (map (λ v, match v, Some m with
                     | Some p, Some q => Some (p - q)%Q
                     | _, _ => None
                     end) l)
  = map (λ p, (p - m)%Q) (present l).
Proof.
  unfold present. induction l as [|[x|] l IH]; cbn; [done| |done].
  by rewrite IH.
Qed.

Lemma temp_errors_spec (ds : Dataset) (t_mean : DataArray Value) (i : nat) :
  DS.getitem "t_mean" ds = Ok t_mean →
  has_dim "time" t_mean = true →
  has_dim "ensemble" t_mean = true →
  positions (label_eqb (LDate (mkDate 1984 7 31)))
            (coord "time" (axes t_mean)) = [i] →
  ∃ err, temp_errors ds = Ok err
    ∧ axes err = drop_axes ["time"] (axes t_mean)
    ∧ ∀ e k,
        let member j := values t_mean (upd "time" i (upd "ensemble" j e)) in
        let n := axis_len "ensemble" (axes t_mean) in
        values err (upd "ensemble" k e)
        = match member k, nanmean (map member (seq 0 n)) with
          | Some p, Some q => Some (p - q)%Q
          | _, _ => None
          end.
Proof.
  intros Hget Ht He Hpos.
  unfold temp_errors, temp_ens_mean, temp. rewrite Hget.
  cbn [mbind result_bind]. unfold DA.sel. rewrite Ht, Hpos.
  cbn [mbind result_bind].
  set (tmp := at_position "time" i t_mean).
  assert (has_dim "ensemble" tmp = true) as Hens.
  { unfold tmp, at_position. destruct t_mean as [ax f].
    rewrite (has_dim_drop_axes _ _ _ _ f). apply andb_true_iff.
    split; [exact He|done]. }
  unfold DA.mean, DA.reduce.
  cbn [forallb nodupb mem existsb andb negb]. rewrite Hens.
  cbn [andb mbind result_bind].
  set (mn := mkDA (drop_axes ["ensemble"] (axes tmp)) _).
  eexists. split; [done|]. split.
  { unfold DA.sub, DA.binop. cbn [axes].
    rewrite drop_axes_nil_iff; [apply app_nil_r|].
    intros d. unfold mn, dims. cbn [axes].
    rewrite dims_drop_axes, list_elem_of_In, filter_In.
    intros [H _]. by apply list_elem_of_In. }
  intros e k. cbv zeta. unfold DA.sub, DA.binop. cbn [values].
  unfold mn. cbn [values]. rewrite gather_one.
  assert (axis_len "ensemble" (axes tmp) = axis_len "ensemble" (axes t_mean))
    as ->.
  { unfold axis_len, tmp, at_position. cbn [axes]. by rewrite coord_drop_axes. }
  unfold tmp, at_position. cbn [values].
  rewrite (map_ext _ (λ j, values t_mean (upd "time" i (upd "ensemble" j e))));
    [done|].
  intros j. by rewrite upd_upd.
Qed.



(** When the time index does not hold the date 1984-07-31, the cells of
    the uncertainty analysis all raise [KeyError]: the selection fails
    and nothing is computed from another date. *)
Theorem temp_date_missing (sqrtQ : Q → Q) (ds : Dataset)
    (t_mean : DataArray Value) :
  DS.getitem "t_mean" ds = Ok t_mean →
  has_dim "time" t_mean = true →
  forallb (λ l, negb (label_eqb (LDate (mkDate 1984 7 31)) l))
          (coord "time" (axes t_mean)) = true →
  temp ds = Raise KeyError
  ∧ temp_ens_mean ds = Raise KeyError
  ∧ temp_errors ds = Raise KeyError
  ∧ temp_std_errors sqrtQ ds = Raise KeyError.
Proof.
  intros Hget Ht Hno.
  assert (temp ds = Raise KeyError) as Htemp.
  { unfold temp. rewrite Hget. cbn [mbind result_bind]. unfold DA.sel.
    rewrite Ht, positions_nil; [done|]. by apply forallb_negb_false. }
  unfold temp_std_errors, temp_errors, temp_ens_mean. by rewrite Htemp.
Qed.

Lemma temp_date_missing_witness :
  temp_std_errors Sample.sqrt3 Sample.ds_winter = Raise KeyError.
Proof.
  apply (temp_date_missing Sample.sqrt3 Sample.ds_winter
           (mkDA [("time", Sample.winter); ("ensemble", Sample.members)]
                 (λ e, Some (inject_Z (Sample.cell e mod 13 - 6))))
           eq_refl eq_refl eq_refl).
Defined.

(** ** A season that the data does not cover *)

(** When the grouped array lacks one of the four seasons (a record
    shorter than a year), the re-indexing to display order raises
    [KeyError]. *)
Theorem seasonal_snow_missing_season (ds : Dataset) (s : DataArray Value) :
  seasonal_snow_0 ds = Ok s →
  existsb (λ l, negb (existsb (label_eqb l) (coord "season" (axes s))))
          season_order = true →
  seasonal_snow ds = Raise KeyError.
Proof.
  intros Hs Hmiss. unfold seasonal_snow. rewrite Hs. cbn [mbind result_bind].
  destruct (seasonal_snow_0_seasons ds s Hs) as (keys & Hc & Hd).
  unfold DA.sel_list. rewrite Hd, Hc. rewrite Hc in Hmiss.
  unfold unique_seasons, sorted_seasons in *. cbn [List.filter] in *.
  destruct (mem "DJF" keys), (mem "JJA" keys), (mem "MAM" keys),
    (mem "SON" keys); first [reflexivity | discriminate Hmiss].
Qed.

Lemma seasonal_snow_missing_season_witness :
  seasonal_snow Sample.ds_winter = Raise KeyError.
Proof.
  assert (match seasonal_snow_0 Sample.ds_winter with
          | Ok s =>
              existsb (λ l, negb (existsb (label_eqb l)
                                    (coord "season" (axes s)))) season_order
          | Raise _ => false
          end = true) as H by (vm_compute; reflexivity).
  destruct (seasonal_snow_0 Sample.ds_winter) as [s|] eqn:E; [|discriminate H].
  exact (seasonal_snow_missing_season Sample.ds_winter s E H).
Defined.

(** ** Snowfall is not negative *)

Lemma present_Forall (P : Q → Prop) (l : list Value) :
  (∀ v x, v ∈ l → v = Some x → P x) → Forall P (present l).
Proof.
  unfold present. induction l as [|[x|] l IH]; intros H; cbn.
  - constructor.
  - constructor; [by apply (H (Some x)); [left|]|].
    apply IH. intros v y Hv. apply H. by right.
  - apply IH. intros v y Hv. apply H. by right.
Qed.

Lemma nanmean_nonneg (l : list Value) (x : Q) :
  (∀ v y, v ∈ l → v = Some y → (0 <= y)%Q) → nanmean l = Some x → (0 <= x)%Q.
Proof.
  intros H. unfold nanmean. pose proof (present_Forall _ l H) as HF.
  destruct (present l) as [|y r]; [done|]. intros [= <-].
  by apply Qmean_nonneg.
Qed.

(** When no precipitation value is negative, no quarterly snowfall total
    and no seasonal mean is negative. *)
Theorem snowfall_nonneg (ds : Dataset) (pcp : DataArray Value) :
  DS.getitem "pcp" ds = Ok pcp →
  (∀ e x, values pcp e = Some x → (0 <= x)%Q) →
  (∀ snow e x, da_snow ds = Ok snow → values snow e = Some x → (0 <= x)%Q)
  ∧ (∀ r e x, seasonal_snow ds = Ok r → values r e = Some x → (0 <= x)%Q).
Proof.
  intros Hp Hpos.
  assert (∀ snow e x, da_snow ds = Ok snow → values snow e = Some x →
            (0 <= x)%Q) as Hsnow.
  { intros snow e x. unfold da_snow. rewrite Hp. cbn [mbind result_bind].
    destruct (DS.getitem "t_mean" ds) as [t_mean|]; [|done].
    cbn [mbind result_bind].
    destruct (RS.resample _ _ _) as [rs|] eqn:Hrs; [|done].
    cbn [mbind result_bind]. intros Hr.
    apply resample_inv in Hrs as (_ & d0 & dates & _ & _ & ->).
    apply rs_reduce_inv in Hr as (_ & _ & Hv). rewrite Hv.
    destruct (RS.bin_positions _ _) as [|p ps]; [done|].
    generalize (p :: ps). intros qs.
    unfold nansum. intros [= <-]. apply Qsum_nonneg.
    apply (present_Forall (λ y, (0 <= y)%Q)).
    intros v y (i & <- & _)%list_elem_of_In%in_map_iff.
    cbn [rs_obj]. unfold DA.where_, DA.binop, DA.lt. cbn [values].
    destruct (match values t_mean _ with Some _ => _ | None => _ end);
      [apply Hpos|done]. }
  split; [exact Hsnow|].
  intros r e x. unfold seasonal_snow.
  destruct (seasonal_snow_0 ds) as [s|] eqn:Hs; [|done].
  cbn [mbind result_bind]. unfold DA.sel_list.
  destruct (has_dim "season" s); [|done]. destruct (forallb _ _); [|done].
  destruct (mapM _ season_order) as [ps|]; [|done]. intros [= <-].
  cbn [values take_positions]. generalize (upd "season" (nth (e !!! "season") ps 0) e).
  clear e. intros e.
  unfold seasonal_snow_0 in Hs.
  destruct (da_snow ds) as [snow|] eqn:Hda; [|done].
  cbn [mbind result_bind] in Hs. unfold DA.isel_slice in Hs.
  destruct (has_dim "ensemble" snow); [|done]. cbn [mbind result_bind] in Hs.
  destruct (GB.groupby_season _ _) as [gb|] eqn:Hgb; [|done].
  cbn [mbind result_bind] in Hs.
  destruct (GB.mean "time" gb) as [s'|] eqn:Hm; [|done].
  cbn [fmap result_fmap] in Hs. injection Hs as <-. unfold DA.persist.
  destruct (gb_mean_inv _ _ _ _ Hgb Hm) as (_ & _ & _ & _ & Hv).
  rewrite Hv. apply nanmean_nonneg.
  intros v y (b & <- & _)%list_elem_of_In%in_map_iff. cbn [values take_positions].
  by apply Hsnow.
Qed.

Lemma sample_pcp_nonneg (e : Env) (x : Q) :
  values (Sample.pcp Sample.lons) e = Some x → (0 <= x)%Q.
Proof.
  cbn. intros [= <-]. apply Qle_shift_div_l; [done|]. rewrite Qmult_0_l.
  change 0%Q with (inject_Z 0). rewrite <- Zle_Qle.
  apply Z.mod_pos_bound. done.
Qed.

Lemma snowfall_nonneg_witness :
  ∃ r x, seasonal_snow Sample.ds = Ok r
    ∧ values r {["season" := 0; "lat" := 0; "lon" := 0; "ensemble" := 0]}
      = Some x
    ∧ (0 <= x)%Q.
Proof.
  assert (match seasonal_snow Sample.ds with
          | Ok r =>
              match values r {["season" := 0; "lat" := 0; "lon" := 0;
                               "ensemble" := 0]} with
              | Some _ => true
              | None => false
              end
          | Raise _ => false
          end = true) as H by (vm_compute; reflexivity).
  destruct (seasonal_snow Sample.ds) as [r|] eqn:E; [|discriminate H].
  destruct (values r _) as [x|] eqn:Ex; [|discriminate H].
  exists r, x. split; [reflexivity|]. split; [exact Ex|].
  exact (proj2 (snowfall_nonneg Sample.ds (Sample.pcp Sample.lons) eq_refl
                  sample_pcp_nonneg) r _ x E Ex).
Defined.

(** ** The bounding box keeps the grid lines inside it *)

Lemma label_leb_trans (a b c : Label) :
  is_num a = true → is_num b = true → is_num c = true →
  label_leb a b = true → label_leb b c = true → label_leb a c = true.
Proof.
  destruct a as [p| |], b as [q| |], c as [r| |]; try done. cbn.
  rewrite !Qle_bool_iff. intros _ _ _. apply Qle_trans.
Qed.

Lemma sorted_head_le (a : Label) (t : list Label) :
  forallb is_num (a :: t) = true → sortedb label_leb (a :: t) = true →
  ∀ l, l ∈ t → label_leb a l = true.
Proof.
  revert a. induction t as [|b t IH]; intros a Hn Hs l Hl.
  - by apply elem_of_nil in Hl.
  - cbn [forallb] in Hn. apply andb_true_iff in Hn as [Ha Hn].
    pose proof Hn as Hn'. cbn [forallb] in Hn'.
    apply andb_true_iff in Hn' as [Hb Ht].
    cbn [sortedb] in Hs. apply andb_true_iff in Hs as [Hab Hs].
    apply elem_of_cons in Hl as [->|Hl]; [done|].
    apply (label_leb_trans a b l); [done..| |done|].
    + rewrite forallb_forall in Ht. apply Ht. by apply list_elem_of_In.
    + by apply IH.
Qed.

Lemma sorted_tail (a : Label) (t : list Label) :
  sortedb label_leb (a :: t) = true → sortedb label_leb t = true.
Proof.
  destruct t as [|b t]; [done|]. cbn [sortedb].
  by intros [_ ?]%andb_true_iff.
Qed.

Lemma count_zero (p : Label → bool) (l : list Label) :
  (∀ x, x ∈ l → p x = false) → count p l = 0.
Proof.
  unfold count. induction l as [|a l IH]; intros H; [done|]. cbn.
  rewrite (H a) by left. apply IH. intros x Hx. apply H. by right.
Qed.

Lemma filter_none (p : Label → bool) (l : list Label) :
  (∀ x, x ∈ l → p x = false) → List.filter p l = [].
Proof.
  induction l as [|a l IH]; intros H; [done|]. cbn.
  rewrite (H a) by left. apply IH. intros x Hx. apply H. by right.
Qed.

(** On an increasing index the labels up to [hi] are a prefix. *)
Lemma sorted_filter_upto (hi : Q) (labs : list Label) :
  forallb is_num labs = true → sortedb label_leb labs = true →
  List.filter (λ l, label_leb l (LNum hi)) labs
  = take (count (λ l, label_leb l (LNum hi)) labs) labs.
Proof.
  induction labs as [|a t IH]; intros Hn Hs; [done|].
  pose proof (sorted_head_le a t Hn Hs) as Hle.
  pose proof Hn as Hn'. cbn [forallb] in Hn'.
  apply andb_true_iff in Hn' as [Ha Ht].
  unfold count. cbn [List.filter].
  destruct (label_leb a (LNum hi)) eqn:E.
  - cbn. f_equal. apply IH; [done|by eapply sorted_tail].
  - assert (∀ x, x ∈ t → label_leb x (LNum hi) = false) as Hno.
    { intros x Hx. apply not_true_iff_false. intros Hx'.
      rewrite (label_leb_trans a x (LNum hi)) in E; try done.
      - rewrite forallb_forall in Ht. apply Ht. by apply list_elem_of_In.
      - by apply Hle. }
    by rewrite filter_none.
Qed.

Lemma omap_lookup_seq_S {A} (a : A) (t : list A) (s n : nat) :
  omap (λ i, (a :: t) !! i) (seq (S s) n) = omap (λ i, t !! i) (seq s n).
Proof.
  revert s. induction n as [|n IH]; intros s; [done|]. cbn [seq omap].
  change ((a :: t) !! S s) with (t !! s). destruct (t !! s); cbn; by rewrite IH.
Qed.

Lemma slice_positions_filter (lo hi : Q) (labs : list Label) :
  forallb is_num labs = true → sortedb label_leb labs = true →
  (lo <= hi)%Q →
  ∃ ps, slice_positions lo hi labs = Ok ps
    ∧ omap (λ i, labs !! i) ps = List.filter (in_range lo hi) labs.
Proof.
  intros Hn Hs Hlh. unfold slice_positions. rewrite Hn, Hs. cbn [negb]. cbv zeta.
  eexists. split; [done|].
  induction labs as [|a t IH]; [done|].
  pose proof (sorted_head_le a t Hn Hs) as Hle.
  pose proof Hn as Hn'. cbn [forallb] in Hn'.
  apply andb_true_iff in Hn' as [Ha Ht].
  specialize (IH Ht (sorted_tail _ _ Hs)).
  destruct (label_leb (LNum lo) a) eqn:E.
  - assert (∀ x, x ∈ a :: t → label_leb (LNum lo) x = true) as Hall.
    { intros x [->|Hx]%elem_of_cons; [done|].
      apply (label_leb_trans (LNum lo) a x); try done.
      - rewrite forallb_forall in Ht. apply Ht. by apply list_elem_of_In.
      - by apply Hle. }
    rewrite (count_zero (λ l, negb (label_leb (LNum lo) l))).
    2:{ intros x Hx. by rewrite Hall. }
    rewrite Nat.sub_0_r, omap_lookup_seq by apply count_le_length.
    rewrite <- sorted_filter_upto by done.
    apply filter_ext_in. intros x Hx. unfold in_range.
    rewrite Hall; [done|]. by apply list_elem_of_In.
  - assert (label_leb a (LNum hi) = true) as E2.
    { destruct a as [q| |]; try done. cbn in *.
      apply not_true_iff_false in E. rewrite Qle_bool_iff in E.
      apply Qle_bool_iff. lra. }
    unfold count. cbn [List.filter]. rewrite E, E2. cbn [negb length].
    fold (count (λ l, negb (label_leb (LNum lo) l)) t).
    fold (count (λ l, label_leb l (LNum hi)) t).
    rewrite Nat.sub_succ, omap_lookup_seq_S, IH.
    unfold in_range at 2. by rewrite E.
Qed.

Lemma ds_tx_spec (ds : Dataset) (pcp : DataArray Value) :
  DS.getitem "pcp" ds = Ok pcp →
  has_dim "lat" pcp = true →
  has_dim "lon" pcp = true →
  DS.index "lat" ds = Some (coord "lat" (axes pcp)) →
  DS.index "lon" ds = Some (coord "lon" (axes pcp)) →
  ∀ ps1 ps2,
    slice_positions (austin_lon - buf) (austin_lon + buf)
                    (coord "lon" (axes pcp)) = Ok ps1 →
    slice_positions (austin_lat - buf) (austin_lat + buf)
                    (coord "lat" (axes pcp)) = Ok ps2 →
    ∃ tx, ds_tx ds = Ok tx
      ∧ DS.getitem "pcp" tx
        = Ok (take_positions "lat" ps2 (take_positions "lon" ps1 pcp)).
Proof.
  intros Hpcp Hlat Hlon Hilat Hilon ps1 ps2 Hp1 Hp2.
  unfold ds_tx, DS.sel. cbn [forallb fst snd].
  rewrite (index_is_Some _ _ _ Hilat), (index_is_Some _ _ _ Hilon).
  cbn [andb mapM fst snd]. rewrite Hilat, Hilon. cbn [default from_option id].
  rewrite Hp1, Hp2. cbn [mbind result_bind mret result_ret foldl fst snd].
  eexists. split; [done|].
  unfold DS.getitem. rewrite !assoc_isel_positions.
  unfold DS.getitem in Hpcp. destruct (assoc "pcp" ds) as [a|]; [|done].
  injection Hpcp as ->. cbn [fmap option_fmap option_map].
  by rewrite Hlon, has_dim_take_positions, Hlat.
Qed.

(** The selection around Austin keeps, on increasing numeric lat and lon
    indexes, exactly the grid lines within 0.25 degrees of the city, both
    bounds included, in their order; the other dimensions of the
    precipitation are untouched.  It succeeds also when no grid line is
    in the box. *)
Theorem ds_tx_keeps_box (ds : Dataset) (pcp : DataArray Value) :
  DS.getitem "pcp" ds = Ok pcp →
  has_dim "lat" pcp = true →
  has_dim "lon" pcp = true →
  DS.index "lat" ds = Some (coord "lat" (axes pcp)) →
  DS.index "lon" ds = Some (coord "lon" (axes pcp)) →
  forallb is_num (coord "lat" (axes pcp)) = true →
  forallb is_num (coord "lon" (axes pcp)) = true →
  sortedb label_leb (coord "lat" (axes pcp)) = true →
  sortedb label_leb (coord "lon" (axes pcp)) = true →
  ∃ tx pcp', ds_tx ds = Ok tx
    ∧ DS.getitem "pcp" tx = Ok pcp'
    ∧ dims pcp' = dims pcp
    ∧ coord "lon" (axes pcp')
      = List.filter (in_range (austin_lon - buf) (austin_lon + buf))
                    (coord "lon" (axes pcp))
    ∧ coord "lat" (axes pcp')
      = List.filter (in_range (austin_lat - buf) (austin_lat + buf))
                    (coord "lat" (axes pcp))
    ∧ ∀ x, x ≠ "lat" → x ≠ "lon" → coord x (axes pcp') = coord x (axes pcp).
Proof.
  intros Hpcp Hlat Hlon Hilat Hilon Hnlat Hnlon Hslat Hslon.
  destruct (slice_positions_filter (austin_lon - buf) (austin_lon + buf) _
              Hnlon Hslon) as (ps1 & Hp1 & Hf1); [done|].
  destruct (slice_positions_filter (austin_lat - buf) (austin_lat + buf) _
              Hnlat Hslat) as (ps2 & Hp2 & Hf2); [done|].
  destruct (ds_tx_spec ds pcp Hpcp Hlat Hlon Hilat Hilon ps1 ps2 Hp1 Hp2)
    as (tx & Htx & Hget).
  exists tx, (take_positions "lat" ps2 (take_positions "lon" ps1 pcp)).
  split_and!; [done..| | | |].
  - unfold dims, take_positions. cbn [axes]. by rewrite !dims_set_axis_same.
  - rewrite coord_take_positions_ne by done.
    destruct (take_positions_axes "lon" ps1 pcp Hlon) as (Hc & _).
    by rewrite Hc.
  - assert (has_dim "lat" (take_positions "lon" ps1 pcp) = true) as Hl
      by by rewrite has_dim_take_positions.
    destruct (take_positions_axes "lat" ps2 _ Hl) as (Hc & _).
    by rewrite Hc, coord_take_positions_ne.
  - intros x H1 H2. by rewrite !coord_take_positions_ne.
Qed.

Lemma ds_tx_keeps_box_witness :
  ∃ tx pcp', ds_tx Sample.ds = Ok tx
    ∧ DS.getitem "pcp" tx = Ok pcp'
    ∧ coord "lon" (axes pcp') = [LNum (- (977 # 10))]
    ∧ coord "lat" (axes pcp') = [LNum (302 # 10)].
Proof.
  destruct (ds_tx_keeps_box Sample.ds (Sample.pcp Sample.lons) eq_refl eq_refl
              eq_refl eq_refl eq_refl eq_refl eq_refl eq_refl eq_refl)
    as (tx & pcp' & H1 & H2 & _ & H3 & H4 & _).
  exists tx, pcp'. split; [exact H1|]. split; [exact H2|].
  split; [exact H3|exact H4].
Defined.

(** ** The input of the last figure *)

Lemma length_filter_two (a b : string) (l : list string) :
  a ≠ b → NoDup l → a ∈ l → b ∈ l →
  length (List.filter (λ d, negb (mem d [a; b])) l) + 2 = length l.
Proof.
  intros Hab Hl Ha Hb.
  pose proof (List.filter_length (λ d, mem d [a; b]) l) as Hp.
  assert (List.filter (λ d, mem d [a; b]) l ≡ₚ [a; b]) as Hperm.
  { apply NoDup_Permutation.
    - by apply NoDup_list_filter.
    - apply NoDup_cons. split; [by intros ->%list_elem_of_singleton|].
      apply NoDup_singleton.
    - intros x. rewrite elem_of_list_filter, mem_true.
      split; [by intros [_ ?]|]. intros Hx. split; [|done].
      apply elem_of_cons in Hx as [->|Hx]; [done|].
      by apply list_elem_of_singleton in Hx as ->. }
  apply Permutation_length in Hperm. cbn [length] in Hperm.
  etrans; [|exact Hp]. rewrite Hperm. lia.
Qed.

Lemma austin_figure_ndim (ds : Dataset) (pcp : DataArray Value)
    (d0 : Date) (dates : list Date) :
  DS.getitem "pcp" ds = Ok pcp →
  has_dim "time" pcp = true →
  has_dim "lat" pcp = true →
  has_dim "lon" pcp = true →
  nodupb (dims pcp) = true →
  DS.index "lat" ds = Some (coord "lat" (axes pcp)) →
  DS.index "lon" ds = Some (coord "lon" (axes pcp)) →
  forallb is_num (coord "lat" (axes pcp)) = true →
  forallb is_num (coord "lon" (axes pcp)) = true →
  sortedb label_leb (coord "lat" (axes pcp)) = true →
  sortedb label_leb (coord "lon" (axes pcp)) = true →
  in_box austin_lat (coord "lat" (axes pcp)) = true →
  in_box austin_lon (coord "lon" (axes pcp)) = true →
  mapM as_date (coord "time" (axes pcp)) = Some (d0 :: dates) →
  sortedb date_leb (d0 :: dates) = true →
  austin_figure ds
  = match length (dims pcp) with
    | 3 => Ok PSeries
    | 4 => Ok PDataFrame
    | 5 => Ok PPanel
    | _ => Raise ValueError
    end.
Proof.
  intros Hpcp Ht Hlat Hlon Hnd H1 H2 H3 H4 H5 H6 H7 H8 H9 H10.
  destruct (pcp_ann_max_ts_spec ds pcp d0 dates Hpcp Ht Hlat Hlon H1 H2 H3 H4
              H5 H6 H7 H8 H9 H10) as (r & Hr & Hd & _).
  unfold austin_figure. rewrite Hr. cbn [mbind result_bind].
  unfold to_pandas, transpose, dims. cbn [axes].
  rewrite length_fmap, length_rev, <- (length_fmap fst). fold (dims r).
  rewrite Hd.
  pose proof (length_filter_two "lat" "lon" (dims pcp) ltac:(done)
                (proj1 (nodupb_NoDup _) Hnd)
                (proj1 (mem_true _ _) Hlat) (proj1 (mem_true _ _) Hlon)) as Hl.
  assert (1 ≤ length (List.filter (λ d, negb (mem d ["lat"; "lon"])) (dims pcp)))
    as Hge.
  { assert ("time" ∈ List.filter (λ d, negb (mem d ["lat"; "lon"])) (dims pcp))
      as Hin.
    { apply elem_of_list_filter. split; [by apply mem_true|done]. }
    destruct (List.filter _ (dims pcp)); [by apply elem_of_nil in Hin|].
    cbn. lia. }
  change ((axes pcp).*1) with (dims pcp).
  destruct (length (dims pcp)) as [|[|[|[|[|[|n]]]]]];
    destruct (length (List.filter _ (dims pcp))) as [|[|[|[|m]]]]; try lia;
    done.
Qed.

(** The object the last figure is drawn from is a pandas Series when
    the precipitation has the dimensions time, lat and lon only, and a
    DataFrame when it has one more dimension (the ensemble): one line per
    member. *)
Theorem austin_figure_kind (ds : Dataset) (pcp : DataArray Value)
    (d0 : Date) (dates : list Date) :
  DS.getitem "pcp" ds = Ok pcp →
  has_dim "time" pcp = true →
  has_dim "lat" pcp = true →
  has_dim "lon" pcp = true →
  nodupb (dims pcp) = true →
  DS.index "lat" ds = Some (coord "lat" (axes pcp)) →
  DS.index "lon" ds = Some (coord "lon" (axes pcp)) →
  forallb is_num (coord "lat" (axes pcp)) = true →
  forallb is_num (coord "lon" (axes pcp)) = true →
  sortedb label_leb (coord "lat" (axes pcp)) = true →
  sortedb label_leb (coord "lon" (axes pcp)) = true →
  in_box austin_lat (coord "lat" (axes pcp)) = true →
  in_box austin_lon (coord "lon" (axes pcp)) = true →
  mapM as_date (coord "time" (axes pcp)) = Some (d0 :: dates) →
  sortedb date_leb (d0 :: dates) = true →
  (length (dims pcp) = 3 → austin_figure ds = Ok PSeries)
  ∧ (length (dims pcp) = 4 → austin_figure ds = Ok PDataFrame).
Proof.
  intros Hpcp Ht Hlat Hlon Hnd H1 H2 H3 H4 H5 H6 H7 H8 H9 H10.
  pose proof (austin_figure_ndim ds pcp d0 dates Hpcp Ht Hlat Hlon Hnd H1 H2
                H3 H4 H5 H6 H7 H8 H9 H10) as H.
  split; intros Hn; by rewrite Hn in H.
Qed.

Lemma austin_figure_kind_witness : austin_figure Sample.ds = Ok PDataFrame.
Proof.
  apply (austin_figure_kind Sample.ds (Sample.pcp Sample.lons)
           (mkDate 1983 12 30)
           [mkDate 1984 1 15; mkDate 1984 7 31; mkDate 1984 10 2;
            mkDate 1986 4 1]); reflexivity.
Defined.

(** ** The units written on the derived arrays *)

Lemma lookup_snoc {A} (l : list A) (x : A) : (l ++ [x]) !! length l = Some x.
Proof. by apply list_lookup_middle. Qed.

Ltac by_cells :=
  repeat first
    [ match goal with H : ?l = Ok _ |- context [?l] => rewrite H end
    | progress cbn [mbind result_bind fmap result_fmap] ];
  done.

(** The spread analysis binds [spread] to the array computed from the
    dataset, with an attribute dictionary of its own that holds just the
    units [degC]; the dictionaries that existed before are unchanged. *)
Theorem spread_units (s s' : Session) (ds : Dataset)
    (var_attrs : list (string * nat)) :
  assoc "ds" (names s) = Some (ODataset ds var_attrs) →
  analysis_spread s = (s', Ok ()) →
  ∃ a ar, assoc "spread" (names s') = Some (OArray a ar)
    ∧ spread ds = Ok a
    ∧ store s' !! ar = Some [("units", "degC")]
    ∧ take (length (store s)) (store s') = store s.
Proof.
  destruct s as [st ns]. cbn [names store]. intros Hds.
  unfold analysis_spread. repeat step Hds; intros [= <-]; cbn [names store].
  eexists _, _. split; [reflexivity|]. split.
  { unfold spread, spread_0, temp_mean. by_cells. }
  split.
  - by rewrite list_lookup_alter_eq, lookup_snoc, lookup_snoc.
  - rewrite take_alter_ge by (rewrite !length_app; lia).
    rewrite <- !app_assoc. apply take_app_length.
Qed.

(** The snow analysis binds [seasonal_snow] to the re-indexed seasonal
    array, with an attribute dictionary of its own that holds just the
    units [mm/season]; the dictionaries that existed before are
    unchanged. *)
Theorem seasonal_snow_units (s s' : Session) (ds : Dataset)
    (var_attrs : list (string * nat)) :
  assoc "ds" (names s) = Some (ODataset ds var_attrs) →
  analysis_snow s = (s', Ok ()) →
  ∃ a ar, assoc "seasonal_snow" (names s') = Some (OArray a ar)
    ∧ seasonal_snow ds = Ok a
    ∧ store s' !! ar = Some [("units", "mm/season")]
    ∧ take (length (store s)) (store s') = store s.
Proof.
  destruct s as [st ns]. cbn [names store]. intros Hds.
  unfold analysis_snow. repeat step Hds; intros [= <-]; cbn [names store].
  eexists _, _. split; [reflexivity|]. split.
  { unfold seasonal_snow, seasonal_snow_0, da_snow. by_cells. }
  split.
  - rewrite list_lookup_alter_eq, lookup_snoc. cbn [fmap option_fmap option_map].
    by rewrite !lookup_snoc.
  - rewrite take_alter_ge by (rewrite !length_app; lia).
    rewrite <- !app_assoc. apply take_app_length.
Qed.

Lemma spread_units_witness :
  let s0 := load Sample.ds [("pcp", 0); ("t_mean", 1); ("elevation", 2)]
              [[("units", "mm")]; [("units", "degC")]; [("units", "m")]] in
  ∃ a ar, assoc "spread" (names (analysis_spread s0).1) = Some (OArray a ar)
    ∧ store (analysis_spread s0).1 !! ar = Some [("units", "degC")]
    ∧ take 3 (store (analysis_spread s0).1) = store s0.
Proof.
  intros s0.
  assert (is_ok (analysis_spread s0).2 = true) as H by (vm_compute; reflexivity).
  destruct (analysis_spread s0) as [s' [[]|e]] eqn:E; [|discriminate H].
  destruct (spread_units s0 s' Sample.ds _ eq_refl E) as (a & ar & H1 & _ & H2 & H3).
  exists a, ar. split; [exact H1|]. split; [exact H2|exact H3].
Defined.

Lemma seasonal_snow_units_witness :
  let s0 := load Sample.ds [("pcp", 0); ("t_mean", 1); ("elevation", 2)]
              [[("units", "mm")]; [("units", "degC")]; [("units", "m")]] in
  ∃ a ar, assoc "seasonal_snow" (names (analysis_snow s0).1) = Some (OArray a ar)
    ∧ store (analysis_snow s0).1 !! ar = Some [("units", "mm/season")].
Proof.
  intros s0.
  assert (is_ok (analysis_snow s0).2 = true) as H by (vm_compute; reflexivity).
  destruct (analysis_snow s0) as [s' [[]|e]] eqn:E; [|discriminate H].
  destruct (seasonal_snow_units s0 s' Sample.ds _ eq_refl E)
    as (a & ar & H1 & _ & H2 & _).
  exists a, ar. split; [exact H1|exact H2].
Defined.

(** ** The annual series bounds the daily values *)

Lemma foldr_Qmax_ub (v x : Q) (r : list Q) :
  v ∈ x :: r → (v <= foldr Qmax x r)%Q.
Proof.
  induction r as [|y r IH]; cbn.
  - intros ->%list_elem_of_singleton. apply Qle_refl.
  - intros [->|[->|H]%elem_of_cons]%elem_of_cons.
    + eapply Qle_trans; [apply IH; left|apply Q.le_max_r].
    + apply Q.le_max_l.
    + eapply Qle_trans; [apply IH; by right|apply Q.le_max_r].
Qed.

Lemma elem_of_present (v : Q) (l : list Value) : v ∈ present l ↔ Some v ∈ l.
Proof.
  unfold present. rewrite list_elem_of_omap. split.
  - by intros ([x|] & Hx & [= ->]).
  - intros H. by exists (Some v).
Qed.

Lemma nanmax_ub (v : Q) (l : list Value) :
  Some v ∈ l → ∃ m, nanmax l = Some m ∧ (v <= m)%Q.
Proof.
  intros H%elem_of_present. unfold nanmax.
  destruct (present l) as [|x r]; [by apply elem_of_nil in H|].
  eexists. split; [done|]. by apply foldr_Qmax_ub.
Qed.

Lemma foldr_Qmax_elem (x : Q) (r : list Q) : foldr Qmax x r ∈ x :: r.
Proof.
  induction r as [|y r IH]; cbn [foldr]; [left|].
  assert (∀ a b : Q, Qmax a b = a ∨ Qmax a b = b) as Hmax.
  { intros a b. unfold Qmax, GenericMinMax.gmax.
    destruct (a ?= b)%Q; auto. }
  destruct (Hmax y (foldr Qmax x r)) as [-> | ->].
  - right. left.
  - apply elem_of_cons in IH as [IH|IH]; [rewrite IH; left|by do 2 right].
Qed.

Lemma nanmax_attained (m : Q) (l : list Value) :
  nanmax l = Some m → Some m ∈ l.
Proof.
  unfold nanmax. destruct (present l) as [|x r] eqn:Hp; [done|].
  intros [= <-]. apply elem_of_present. rewrite Hp. apply foldr_Qmax_elem.
Qed.

Lemma elem_of_gather2 {V} (d1 d2 : string) (ax : Axes) (f : Env → V) (e : Env)
    (v : V) :
  v ∈ gather [d1; d2] ax f e ↔
  ∃ a b, a < axis_len d1 ax ∧ b < axis_len d2 ax
         ∧ v = f (upd d2 b (upd d1 a e)).
Proof.
  cbn [gather]. rewrite list_elem_of_In, in_flat_map. split.
  - intros (a & Ha%in_seq & (b & Hb%in_seq & Hv)%in_flat_map).
    exists a, b. split_and!; [lia..|].
    by destruct Hv as [<-|[]].
  - intros (a & b & Ha & Hb & ->). exists a. split; [apply in_seq; lia|].
    apply in_flat_map. exists b. split; [apply in_seq; lia|]. by left.
Qed.


